(** * InGame widget wrappers ([src/ingame/objects.py])

    A shallow embedding of the four widget classes [Button], [Text],
    [Image] and [Input].  Every class is a thin wrapper around calls into
    tkinter, requests and PIL.  Those libraries are not part of the
    repository, so a method is embedded as a program over the signature of
    the foreign calls it performs; the program is then run against an
    arbitrary implementation of the foreign layer, which yields the final
    state of the foreign world, the trace of calls that were made, and the
    value returned or the exception raised. *)

From Stdlib Require Import ZArith String List Bool Lia.
From Stdlib Require Import Floats.SpecFloat.
From stdpp Require Import base option gmap strings.

Open Scope string_scope.
Open Scope list_scope.
Open Scope Z_scope.

(** ** Python values *)

(** Identity of an object owned by a foreign library (a Tk widget, a
    PhotoImage). *)
Definition Handle := positive.

(** Modelled from the spec: the class [Screen] lives in [ingame/core.py],
    which is imported by objects.py but is not among the sources.  The spec
    says that a Screen instance exposes a [root] container handle that native
    widgets attach to, and nothing else is used here. *)
Record Screen := { root : Handle }.

(** The dynamically typed values that reach the constructors: the first
    positional argument, the values of [packargs] and of [**kwargs]. *)
Inductive PyVal :=
| PyNone
| PyBool (b : bool)
| PyInt (n : Z)
| PyStr (s : string)
| PyScreen (s : Screen)
| PyPhotoImage (p : Handle)
| PyObj (id : positive).

#[global] Instance Screen_eq_dec : EqDecision Screen.
Proof. solve_decision. Defined.
#[global] Instance PyVal_eq_dec : EqDecision PyVal.
Proof. solve_decision. Defined.

#[global] Instance PyVal_countable : Countable PyVal.
Proof.
  refine (inj_countable'
    (λ v, match v with
          | PyNone => inl ()
          | PyBool b => inr (inl b)
          | PyInt n => inr (inr (inl n))
          | PyStr s => inr (inr (inr (inl s)))
          | PyScreen s => inr (inr (inr (inr (inl (root s)))))
          | PyPhotoImage p => inr (inr (inr (inr (inr (inl p)))))
          | PyObj id => inr (inr (inr (inr (inr (inr id)))))
          end)
    (λ x, match x with
          | inl () => PyNone
          | inr (inl b) => PyBool b
          | inr (inr (inl n)) => PyInt n
          | inr (inr (inr (inl s))) => PyStr s
          | inr (inr (inr (inr (inl r)))) => PyScreen {| root := r |}
          | inr (inr (inr (inr (inr (inl p))))) => PyPhotoImage p
          | inr (inr (inr (inr (inr (inr id))))) => PyObj id
          end) _).
  by intros [| | | |[]| |].
Defined.

(** [isinstance(v, Screen)], returning the instance when it is one. *)
Definition isinstance_Screen (v : PyVal) : option Screen :=
  match v with
  | PyScreen s => Some s
  | _ => None
  end.

(** Keyword arguments, as a call receives them: the name of a keyword
    argument is a string. *)
Abbreviation Kwargs := (gmap string PyVal).

(** A dict as [packargs] is declared, [dict[Any, Optional[Any]]]: any
    value may be a key.  (Values that Python takes for one key, such as
    [1] and [True], are different keys here; a map holding both stands
    for no dict.) *)
Abbreviation Dict := (gmap PyVal PyVal).

Definition is_str (v : PyVal) : bool :=
  match v with PyStr _ => true | _ => false end.

(** A dict item as a keyword argument, when its key can name one. *)
Definition keyword (item : PyVal * PyVal) : option (string * PyVal) :=
  match item.1 with
  | PyStr name => Some (name, item.2)
  | _ => None
  end.

(** The items of a dict that have a str key, under that str. *)
Definition str_items (d : Dict) : Kwargs :=
  list_to_map (omap keyword (map_to_list d)).

(** Truth value of an [Optional[int]]: [None] and [0] are false. *)
Definition truthy (o : option Z) : bool :=
  match o with
  | None => false
  | Some n => negb (n =? 0)
  end.

(** ** Exceptions and results *)

Inductive Exn :=
| TypeError (msg : string)
| ZeroDivisionError
| OverflowError
| ValueError
| HTTPError (status_code : Z)
| Foreign (name : string).

Inductive Result (A : Type) :=
| Ok (a : A)
| Err (e : Exn).
Arguments Ok {A} a.
Arguments Err {A} e.

Definition Result_bind {A B} (r : Result A) (f : A → Result B) : Result B :=
  match r with
  | Ok a => f a
  | Err e => Err e
  end.

(** ** Python arithmetic on [int] and [float]

    [width / orig_w] is true division of two ints and produces a float;
    [orig_h * f] converts the int and multiplies; [int(f)] truncates.  Floats
    are IEEE 754 binary64, taken from the standard library's executable
    specification. *)
Module PyFloat.

Definition prec : Z := 53.
Definition emax : Z := 1024.
Abbreviation float := spec_float.

(** An int as an exact, not yet rounded, binary number. *)
Definition exact (n : Z) : float :=
  match n with
  | Z0 => S754_zero false
  | Zpos p => S754_finite false p 0
  | Zneg p => S754_finite true p 0
  end.

Definition finite_or_overflow (f : float) : Result float :=
  match f with
  | S754_infinity _ => Err OverflowError
  | _ => Ok f
  end.

(** [float(n)]: nearest float, ties to even; too large an int raises. *)
Definition of_int (n : Z) : Result float :=
  finite_or_overflow (binary_normalize prec emax n 0 false).

(** [a / b] on ints: the correctly rounded quotient. *)
Definition int_truediv (a b : Z) : Result float :=
  if b =? 0 then Err ZeroDivisionError
  else finite_or_overflow (SFdiv prec emax (exact a) (exact b)).

(** [n * f] with [n] an int and [f] a float. *)
Definition int_mul (n : Z) (f : float) : Result float :=
  Result_bind (of_int n) (λ x, Ok (SFmul prec emax x f)).

(** [int(f)]: truncation towards zero. *)
Definition to_int (f : float) : Result Z :=
  match f with
  | S754_zero _ => Ok 0
  | S754_finite s m e =>
      let a := match e with
               | Z0 => Zpos m
               | Zpos _ => Z.shiftl (Zpos m) e
               | Zneg _ => Z.shiftr (Zpos m) (- e)
               end in
      Ok (if s then - a else a)
  | S754_infinity _ => Err OverflowError
  | S754_nan => Err ValueError
  end.

(** [int(other * (given / orig))], the expression of lines 152 and 154. *)
Definition scaled (other given orig : Z) : Result Z :=
  Result_bind (int_truediv given orig) (λ ratio,
  Result_bind (int_mul other ratio) to_int).

End PyFloat.

(** ** The foreign layer: tkinter, requests, PIL *)

(** A [requests.Response], as far as it is used. *)
Record Response := { status_code : Z; content : list Byte.byte }.

(** A decoded [PIL.Image.Image]; [size] is its [(width, height)]. *)
Record PilImage := { im_id : Handle; size : Z * Z }.

(** The resampling filters of PIL, of which the code uses one. *)
Inductive Resampling := LANCZOS.

(** The argument of [PIL.Image.open]: a file name or an [io.BytesIO]. *)
Inductive Fp :=
| Path (name : string)
| BytesIO (data : list Byte.byte).

(** The calls the wrappers make into foreign code, with their arguments. *)
Inductive Call :=
| tk_Button (master : Handle) (cnf : Kwargs)
| tk_Label (master : Handle) (cnf : Kwargs)
| tk_Entry (master : Handle) (cnf : Kwargs)
| tk_pack (w : Handle) (cnf : Kwargs)
| tk_config (w : Handle) (cnf : Kwargs)
| tk_destroy (w : Handle)
| tk_get (w : Handle)
| requests_get (url : string)
| PILImage_open (fp : Fp)
| PILImage_resize (im : PilImage) (size : option Z * option Z)
    (resample : Resampling)
| ImageTk_PhotoImage (im : PilImage).

(** What each call returns when it does not raise. *)
Definition Resp (c : Call) : Type :=
  match c with
  | tk_Button _ _ | tk_Label _ _ | tk_Entry _ _ => Handle
  | tk_pack _ _ | tk_config _ _ | tk_destroy _ => unit
  | tk_get _ => string
  | requests_get _ => Response
  | PILImage_open _ | PILImage_resize _ _ _ => PilImage
  | ImageTk_PhotoImage _ => Handle
  end.

(** [Response.raise_for_status] of the requests library: status codes 4xx
    and 5xx raise [HTTPError], every other response passes. *)
Definition raise_for_status (resp : Response) : Result unit :=
  if (400 <=? status_code resp) && (status_code resp <? 600)
  then Err (HTTPError (status_code resp))
  else Ok tt.

(** ** Programs over the foreign layer *)

Inductive Prog (A : Type) : Type :=
| Ret (a : A)
| Raise (e : Exn)
| Vis (c : Call) (k : Resp c → Prog A).
Arguments Ret {A} a.
Arguments Raise {A} e.
Arguments Vis {A} c k.

Fixpoint Prog_bind {A B} (f : A → Prog B) (p : Prog A) : Prog B :=
  match p with
  | Ret a => f a
  | Raise e => Raise e
  | Vis c k => Vis c (λ r, Prog_bind f (k r))
  end.

#[global] Instance Prog_mret : MRet Prog := @Ret.
#[global] Instance Prog_mbind : MBind Prog := @Prog_bind.

(** One foreign call. *)
Definition call (c : Call) : Prog (Resp c) := Vis c Ret.

(** A pure computation that may raise. *)
Definition lift {A} (r : Result A) : Prog A :=
  match r with
  | Ok a => Ret a
  | Err e => Raise e
  end.

(** What a run produces: the foreign world it leaves, the calls it made in
    order, and the value returned or the exception that escaped. *)
Record Outcome (World A : Type) :=
  { final : World; trace : list Call; result : Result A }.
Arguments final {World A} o.
Arguments trace {World A} o.
Arguments result {World A} o.

(** An implementation of the foreign layer: each call either returns or
    raises, and may change the world. *)
Definition Native (World : Type) : Type :=
  ∀ c : Call, World → Result (Resp c) * World.

(** Exceptions raised by a foreign call propagate: nothing catches them. *)
Fixpoint run {World A} (native : Native World) (p : Prog A) (w : World)
  : Outcome World A :=
  match p with
  | Ret a => {| final := w; trace := []; result := Ok a |}
  | Raise e => {| final := w; trace := []; result := Err e |}
  | Vis c k =>
      match native c w with
      | (Ok r, w') =>
          let o := run native (k r) w' in
          {| final := final o; trace := c :: trace o; result := result o |}
      | (Err e, w') => {| final := w'; trace := [c]; result := Err e |}
      end
  end.

(** Running [p] and then [k] on its value. *)
Definition then_run {World A B} (native : Native World)
    (o : Outcome World A) (k : A → Prog B) : Outcome World B :=
  match result o with
  | Ok a =>
      let o' := run native (k a) (final o) in
      {| final := final o'; trace := trace o ++ trace o'; result := result o' |}
  | Err e => {| final := final o; trace := trace o; result := Err e |}
  end.

(** ** The widget classes *)

(** The dict comprehension
    [{k: v for k, v in packargs.items() if v is not None}]. *)
Definition not_None_items (packargs : Dict) : Dict :=
  filter (λ kv, kv.2 ≠ PyNone) packargs.

(** Unpacking a dict into keyword arguments, the two stars in the call of
    [pack]: every key must be a str, or the call is not made. *)
Definition keywords (d : Dict) : Result Kwargs :=
  if decide (map_Forall (λ k _, is_str k = true) d)
  then Ok (str_items d)
  else Err (TypeError "keywords must be strings").

Definition not_a_Screen : Exn :=
  TypeError "screen_obj must be an instance of Screen".

(** A method receives [self] and hands back [self] as it is when the method
    ends, next to its return value if it has one. *)

Module Button.

Record t := { button_obj : Handle }.

Definition __init__ (screen_obj : PyVal) (packargs : option Dict)
    (kwargs : Kwargs) : Prog t :=
  match isinstance_Screen screen_obj with
  | None => Raise not_a_Screen
  | Some screen =>
      let packargs := default ∅ packargs in
      button_obj ← call (tk_Button (root screen) kwargs);
      cnf ← lift (keywords (not_None_items packargs));
      _ ← call (tk_pack button_obj cnf);
      mret {| button_obj := button_obj |}
  end.

Definition config (self : t) (kwargs : Kwargs) : Prog t :=
  _ ← call (tk_config (button_obj self) kwargs);
  mret self.

Definition destroy (self : t) : Prog t :=
  _ ← call (tk_destroy (button_obj self));
  mret self.

End Button.

Module Text.

Record t := { text_obj : Handle }.

Definition __init__ (screen_obj : PyVal) (packargs : option Dict)
    (kwargs : Kwargs) : Prog t :=
  match isinstance_Screen screen_obj with
  | None => Raise not_a_Screen
  | Some screen =>
      let packargs := default ∅ packargs in
      text_obj ← call (tk_Label (root screen) kwargs);
      cnf ← lift (keywords (not_None_items packargs));
      _ ← call (tk_pack text_obj cnf);
      mret {| text_obj := text_obj |}
  end.

Definition config (self : t) (kwargs : Kwargs) : Prog t :=
  _ ← call (tk_config (text_obj self) kwargs);
  mret self.

Definition destroy (self : t) : Prog t :=
  _ ← call (tk_destroy (text_obj self));
  mret self.

End Text.

Module Image.

Record t := { image_obj : Handle; _photo_image : Handle }.

(** [source.startswith("http://") or source.startswith("https://")] *)
Definition is_url (source : string) : bool :=
  String.prefix "http://" source || String.prefix "https://" source.

(** An operand of [/] that must be an int; [None / n] is a TypeError. *)
Definition operand (v : option Z) : Result Z :=
  match v with
  | Some n => Ok n
  | None => Err (TypeError "unsupported operand type(s) for /")
  end.

(** Keyword [image=] next to [**kwargs]: a name given twice is rejected
    when the call is made. *)
Definition with_image (photo : Handle) (kwargs : Kwargs) : Result Kwargs :=
  match kwargs !! "image" with
  | Some _ =>
      Err (TypeError
             "tkinter.Label() got multiple values for keyword argument 'image'")
  | None => Ok (<["image" := PyPhotoImage photo]> kwargs)
  end.

(** Lines 138-147, "Load image from file or URL". *)
Definition load (source : string) : Prog PilImage :=
  img_data ←
    (if is_url source then
       resp ← call (requests_get source);
       _ ← lift (raise_for_status resp);
       mret (BytesIO (content resp))
     else
       mret (Path source));
  call (PILImage_open img_data).

(** Lines 148-155, "If only one is provided, keep aspect ratio". *)
Definition resized (pil_img : PilImage) (width height : option Z)
  : Prog PilImage :=
  if truthy width || truthy height then
    let '(orig_w, orig_h) := size pil_img in
    '(width, height) ←
      (if truthy width && negb (truthy height) then
         height ← lift (Result_bind (operand width) (λ width,
                          PyFloat.scaled orig_h width orig_w));
         mret (width, Some height)
       else if truthy height && negb (truthy width) then
         width ← lift (Result_bind (operand height) (λ height,
                         PyFloat.scaled orig_w height orig_h));
         mret (Some width, height)
       else
         mret (width, height));
    call (PILImage_resize pil_img (width, height) LANCZOS)
  else
    mret pil_img.

(** Lines 157-159: the PhotoImage is stored on the instance, then the
    label is created and packed. *)
Definition display (screen : Screen) (pil_img : PilImage)
    (packargs : Dict) (kwargs : Kwargs) : Prog t :=
  _photo_image ← call (ImageTk_PhotoImage pil_img);
  cnf ← lift (with_image _photo_image kwargs);
  image_obj ← call (tk_Label (root screen) cnf);
  cnf ← lift (keywords (not_None_items packargs));
  _ ← call (tk_pack image_obj cnf);
  mret {| image_obj := image_obj; _photo_image := _photo_image |}.

(** The imports of [io], [PIL] and [requests] at the head of the method
    create nothing and are taken to succeed. *)
Definition __init__ (screen_obj : PyVal) (source : string)
    (packargs : option Dict) (width height : option Z)
    (kwargs : Kwargs) : Prog t :=
  match isinstance_Screen screen_obj with
  | None => Raise not_a_Screen
  | Some screen =>
      let packargs := default ∅ packargs in
      pil_img ← load source;
      pil_img ← resized pil_img width height;
      display screen pil_img packargs kwargs
  end.

Definition config (self : t) (kwargs : Kwargs) : Prog t :=
  _ ← call (tk_config (image_obj self) kwargs);
  mret self.

Definition destroy (self : t) : Prog t :=
  _ ← call (tk_destroy (image_obj self));
  mret self.

End Image.

Module Input.

Record t := { input_obj : Handle }.

Definition __init__ (screen_obj : PyVal) (packargs : option Dict)
    (kwargs : Kwargs) : Prog t :=
  match isinstance_Screen screen_obj with
  | None => Raise not_a_Screen
  | Some screen =>
      let packargs := default ∅ packargs in
      input_obj ← call (tk_Entry (root screen) kwargs);
      cnf ← lift (keywords (not_None_items packargs));
      _ ← call (tk_pack input_obj cnf);
      mret {| input_obj := input_obj |}
  end.

Definition get (self : t) : Prog (t * string) :=
  value ← call (tk_get (input_obj self));
  mret (self, value).

Definition config (self : t) (kwargs : Kwargs) : Prog t :=
  _ ← call (tk_config (input_obj self) kwargs);
  mret self.

Definition destroy (self : t) : Prog t :=
  _ ← call (tk_destroy (input_obj self));
  mret self.

End Input.

(** ** The abstract base class

    [Object] declares [config] and [destroy]; a call on an [Object] goes to
    the method of the instance's class. *)

Inductive Object :=
| a_Button (o : Button.t)
| a_Text (o : Text.t)
| an_Image (o : Image.t)
| an_Input (o : Input.t).

(** The native widget an instance owns. *)
Definition widget (self : Object) : Handle :=
  match self with
  | a_Button o => Button.button_obj o
  | a_Text o => Text.text_obj o
  | an_Image o => Image.image_obj o
  | an_Input o => Input.input_obj o
  end.

Definition config (self : Object) (kwargs : Kwargs) : Prog Object :=
  match self with
  | a_Button o => o ← Button.config o kwargs; mret (a_Button o)
  | a_Text o => o ← Text.config o kwargs; mret (a_Text o)
  | an_Image o => o ← Image.config o kwargs; mret (an_Image o)
  | an_Input o => o ← Input.config o kwargs; mret (an_Input o)
  end.

Definition destroy (self : Object) : Prog Object :=
  match self with
  | a_Button o => o ← Button.destroy o; mret (a_Button o)
  | a_Text o => o ← Text.destroy o; mret (a_Text o)
  | an_Image o => o ← Image.destroy o; mret (an_Image o)
  | an_Input o => o ← Input.destroy o; mret (an_Input o)
  end.

(** The four classes, with the arguments only [Image] takes. *)
Inductive Class :=
| Button_class
| Text_class
| Image_class (source : string) (width height : option Z)
| Input_class.

(** Instantiating a class: [cls(screen_obj, packargs=..., **kwargs)]. *)
Definition new (cls : Class) (screen_obj : PyVal) (packargs : option Dict)
    (kwargs : Kwargs) : Prog Object :=
  match cls with
  | Button_class =>
      o ← Button.__init__ screen_obj packargs kwargs; mret (a_Button o)
  | Text_class =>
      o ← Text.__init__ screen_obj packargs kwargs; mret (a_Text o)
  | Image_class source width height =>
      o ← Image.__init__ screen_obj source packargs width height kwargs;
      mret (an_Image o)
  | Input_class =>
      o ← Input.__init__ screen_obj packargs kwargs; mret (an_Input o)
  end.

(** ** A small foreign layer to run the wrappers on

    A toolkit with just enough behaviour to execute every method: widgets
    are created with fresh handles and remembered until destroyed, the web
    and the disk are tables, and an image file of two bytes decodes to an
    image of that width and height. *)
Module Sim.

Record Native_widget :=
  { options : Kwargs; packed : option Kwargs; text : string }.

Record World :=
  { next : Handle;
    widgets : gmap Handle Native_widget;
    web : gmap string Response;
    disk : gmap string (Z * Z);
    destroy_twice_fails : bool }.

Definition TclError : Exn := Foreign "TclError".

Definition with_widgets (w : World) (next' : Handle)
    (ws : gmap Handle Native_widget) : World :=
  {| next := next'; widgets := ws; web := web w; disk := disk w;
     destroy_twice_fails := destroy_twice_fails w |}.

Definition fresh {A} (w : World) (f : Handle → A) : A * World :=
  (f (next w), with_widgets w (Pos.succ (next w)) (widgets w)).

Definition create (cnf : Kwargs) (w : World) : Result Handle * World :=
  (Ok (next w),
   with_widgets w (Pos.succ (next w))
     (<[next w := {| options := cnf; packed := None; text := "" |}]>
        (widgets w))).

Definition on_widget {A} (h : Handle) (w : World)
    (f : Native_widget → A * Native_widget) : Result A * World :=
  match widgets w !! h with
  | Some nw =>
      let '(a, nw') := f nw in
      (Ok a, with_widgets w (next w) (<[h := nw']> (widgets w)))
  | None => (Err TclError, w)
  end.

Definition decode (data : list Byte.byte) : option (Z * Z) :=
  match data with
  | [a; b] => Some (Z.of_N (Byte.to_N a), Z.of_N (Byte.to_N b))
  | _ => None
  end.

Definition opened (sz : option (Z * Z)) (err : string) (w : World)
  : Result PilImage * World :=
  match sz with
  | Some sz => fresh w (λ h, Ok {| im_id := h; size := sz |})
  | None => (Err (Foreign err), w)
  end.

Definition native : Native World := λ c,
  match c as c0 return World → Result (Resp c0) * World with
  | tk_Button _ cnf | tk_Label _ cnf | tk_Entry _ cnf => create cnf
  | tk_pack h cnf => λ w,
      on_widget h w (λ nw,
        (tt, {| options := options nw; packed := Some cnf; text := text nw |}))
  | tk_config h cnf => λ w,
      on_widget h w (λ nw,
        (tt, {| options := cnf ∪ options nw; packed := packed nw;
                text := text nw |}))
  | tk_destroy h => λ w,
      match widgets w !! h with
      | Some _ => (Ok tt, with_widgets w (next w) (delete h (widgets w)))
      | None => (if destroy_twice_fails w then Err TclError else Ok tt, w)
      end
  | tk_get h => λ w,
      match widgets w !! h with
      | Some nw => (Ok (text nw), w)
      | None => (Err TclError, w)
      end
  | requests_get url => λ w,
      match web w !! url with
      | Some resp => (Ok resp, w)
      | None => (Err (Foreign "ConnectionError"), w)
      end
  | PILImage_open (Path name) => λ w,
      opened (disk w !! name) "FileNotFoundError" w
  | PILImage_open (BytesIO data) => λ w,
      opened (decode data) "UnidentifiedImageError" w
  | PILImage_resize im (Some width, Some height) _ => λ w,
      if (0 <? width) && (0 <? height)
      then fresh w (λ h, Ok {| im_id := h; size := (width, height) |})
      else (Err ValueError, w)
  | PILImage_resize im _ _ => λ w, (Err (TypeError "size"), w)
  | ImageTk_PhotoImage im => λ w, fresh w Ok
  end.

(** The user types into an entry (or its text variable is set). *)
Definition type_text (h : Handle) (s : string) (w : World) : World :=
  match widgets w !! h with
  | Some nw =>
      with_widgets w (next w)
        (<[h := {| options := options nw; packed := packed nw; text := s |}]>
           (widgets w))
  | None => w
  end.

(** A window with handle 1, one image file of 200 by 100 on disk, and a
    web that knows one image and one missing page. *)
Definition start (strict : bool) : World :=
  {| next := 2%positive;
     widgets := ∅;
     web := {[ "https://example.org/logo.png" :=
                 {| status_code := 200; content := [Byte.xc8; Byte.x64] |};
               "https://example.org/gone.png" :=
                 {| status_code := 404; content := [] |} ]};
     disk := {[ "logo.png" := (200, 100); "square.png" := (49, 49) ]};
     destroy_twice_fails := strict |}.

Definition window : PyVal := PyScreen {| root := 1%positive |}.

End Sim.

(** ** Observing a run *)

(** The outcome of a single foreign call that is returned as it is. *)
Definition forwarded {World A} (native : Native World) (c : Call)
    (w : World) (value : Resp c → A) : Outcome World A :=
  match native c w with
  | (Ok r, w') => {| final := w'; trace := [c]; result := Ok (value r) |}
  | (Err e, w') => {| final := w'; trace := [c]; result := Err e |}
  end.

(** The calls of one kind in a trace. *)
Definition pack_calls (tr : list Call) : list (Handle * Kwargs) :=
  omap (λ c, match c with tk_pack h cnf => Some (h, cnf) | _ => None end) tr.

Definition resize_calls (tr : list Call)
  : list (PilImage * (option Z * option Z)) :=
  omap (λ c, match c with
             | PILImage_resize im sz _ => Some (im, sz)
             | _ => None
             end) tr.

Definition is_resize (c : Call) : bool :=
  match c with PILImage_resize _ _ _ => true | _ => false end.

Definition is_fetch (c : Call) : bool :=
  match c with requests_get _ => true | _ => false end.

Definition is_open_path (c : Call) : bool :=
  match c with PILImage_open (Path _) => true | _ => false end.

(** [always Q p past]: on every path through [p], started after the calls
    [past], the calls made so far and the way [p] ends satisfy [Q]. *)
Fixpoint always {A} (Q : list Call → Result A → Prop) (p : Prog A)
    (past : list Call) : Prop :=
  match p with
  | Ret a => Q past (Ok a)
  | Raise e => Q past (Err e)
  | Vis c k =>
      (∀ e, Q (past ++ [c]) (Err e)) ∧ ∀ r, always Q (k r) (past ++ [c])
  end.

(** ** Concrete worlds and programs for the simulated foreign layer *)

Module Runs.

Import Sim.

Definition logo : PilImage := {| im_id := 2%positive; size := (200, 100) |}.

Definition image (source : string) (width height : option Z) : Prog Object :=
  new (Image_class source width height) window None ∅.

(** The world after an Input was created in the window and "hello" was
    typed into it, and that Input. *)
Definition entry : Input.t := {| Input.input_obj := 2%positive |}.

Definition typed : World :=
  type_text 2%positive "hello"
    (final (run native (new Input_class window None ∅) (start true))).

(** The world after a Button was created in the window, and that Button. *)
Definition button : Object := a_Button {| Button.button_obj := 2%positive |}.

Definition with_button (strict : bool) : World :=
  final (run native (new Button_class window None ∅) (start strict)).

Definition without_button (strict : bool) : World :=
  (native (tk_destroy 2%positive) (with_button strict)).2.

End Runs.

(** ** Further observers and worlds *)

(** [Button], [Text] and [Input] have the same constructor up to the
    tkinter class they instantiate. *)
Inductive Plain := plain_Button | plain_Text | plain_Input.

Definition class_of (p : Plain) : Class :=
  match p with
  | plain_Button => Button_class
  | plain_Text => Text_class
  | plain_Input => Input_class
  end.

(** The tkinter constructor a plain class calls. *)
Definition tk_class (p : Plain) (master : Handle) (cnf : Kwargs) : Call :=
  match p with
  | plain_Button => tk_Button master cnf
  | plain_Text => tk_Label master cnf
  | plain_Input => tk_Entry master cnf
  end.

(** The instance of a plain class that owns the native widget [h]. *)
Definition instance (p : Plain) (h : Handle) : Object :=
  match p with
  | plain_Button => a_Button {| Button.button_obj := h |}
  | plain_Text => a_Text {| Text.text_obj := h |}
  | plain_Input => an_Input {| Input.input_obj := h |}
  end.

(** The widget constructions in a trace, with master and options. *)
Definition create_calls (tr : list Call) : list (Handle * Kwargs) :=
  omap (λ c, match c with
             | tk_Button master cnf | tk_Label master cnf
             | tk_Entry master cnf => Some (master, cnf)
             | _ => None
             end) tr.

(** The images handed to [ImageTk.PhotoImage] in a trace. *)
Definition photo_calls (tr : list Call) : list PilImage :=
  omap (λ c, match c with ImageTk_PhotoImage im => Some im | _ => None end) tr.

(** Calls that act on a widget that exists already. *)
Definition is_method_call (c : Call) : bool :=
  match c with
  | tk_config _ _ | tk_destroy _ | tk_get _ => true
  | _ => false
  end.

Definition is_photo (c : Call) : bool :=
  match c with ImageTk_PhotoImage _ => true | _ => false end.

(** A toolkit that, unlike [Sim], refuses packing options it does not
    know, as Tk does. *)
Module Picky.

Definition pack_options : gset string :=
  {[ "after"; "anchor"; "before"; "expand"; "fill"; "in"; "ipadx"; "ipady";
     "padx"; "pady"; "side" ]}.

Definition native : Native Sim.World := λ c,
  match c as c0 return Sim.World → Result (Resp c0) * Sim.World with
  | tk_pack h cnf => λ w,
      if decide (dom cnf ⊆ pack_options)
      then Sim.native (tk_pack h cnf) w
      else (Err Sim.TclError, w)
  | c0 => Sim.native c0
  end.

End Picky.


(** A disk that holds a degenerate picture, zero pixels wide. *)
Definition empty_picture_world : Sim.World :=
  {| Sim.next := 2%positive;
     Sim.widgets := ∅;
     Sim.web := ∅;
     Sim.disk := {[ "empty.png" := (0, 10) ]};
     Sim.destroy_twice_fails := true |}.

(** The handle a tkinter constructor returned. *)
Definition made (p : Plain) (master : Handle) (cnf : Kwargs)
  : Resp (tk_class p master cnf) → Handle :=
  match p with
  | plain_Button | plain_Text | plain_Input => λ h, h
  end.

(** The sign a float carries, if it has one. *)
Definition has_sign (s : bool) (f : spec_float) : Prop :=
  match f with
  | S754_zero _ | S754_nan => True
  | S754_infinity s' | S754_finite s' _ _ => s' = s
  end.

(** * Properties *)

Section Running.

Context {World : Type} (native : Native World).

Lemma then_run_Ok {A B} (o : Outcome World A) (k : A → Prog B) a :
  result o = Ok a →
  then_run native o k =
    {| final := final (run native (k a) (final o));
       trace := trace o ++ trace (run native (k a) (final o));
       result := result (run native (k a) (final o)) |}.
Proof. intros E. unfold then_run. by rewrite E. Qed.

Lemma then_run_Err {A B} (o : Outcome World A) (k : A → Prog B) e :
  result o = Err e →
  then_run native o k =
    {| final := final o; trace := trace o; result := Err e |}.
Proof. intros E. unfold then_run. by rewrite E. Qed.

Lemma run_bind {A B} (p : Prog A) (k : A → Prog B) w :
  run native (p ≫= k) w = then_run native (run native p w) k.
Proof.
  revert w. induction p as [a|e|c k' IH]; intros w.
  - unfold then_run. simpl. by destruct (run native (k a) w).
  - reflexivity.
  - change (Vis c k' ≫= k) with (Vis c (λ r, k' r ≫= k)). simpl.
    destruct (native c w) as [[r|e] w']; [|reflexivity].
    rewrite IH. unfold then_run. simpl.
    by destruct (result (run native (k' r) w')).
Qed.

Lemma run_call_ret {A} c (value : Resp c → A) w :
  run native (r ← call c; mret (value r)) w = forwarded native c w value.
Proof.
  unfold forwarded. change (r ← call c; mret (value r)) with (Vis c (λ r, Ret (value r))).
  simpl. by destruct (native c w) as [[r|e] w'].
Qed.

Lemma then_run_assoc {A B C} (o : Outcome World A) (p : A → Prog B)
    (k : B → Prog C) :
  then_run native o (λ a, p a ≫= k) = then_run native (then_run native o p) k.
Proof.
  unfold then_run at 1 3. destruct (result o) as [a|e]; [|reflexivity].
  rewrite run_bind. unfold then_run. simpl.
  destruct (result (run native (p a) (final o))); simpl;
    [by rewrite app_assoc|reflexivity].
Qed.

Lemma then_run_trace {A B} (o : Outcome World A) (k : A → Prog B) :
  trace (then_run native o k) =
  trace o ++ match result o with
             | Ok a => trace (run native (k a) (final o))
             | Err _ => []
             end.
Proof.
  unfold then_run. destruct (result o); simpl; [done|by rewrite app_nil_r].
Qed.

Lemma then_run_ext {A B} (o : Outcome World A) (k k' : A → Prog B) :
  (∀ a, k a = k' a) → then_run native o k = then_run native o k'.
Proof.
  intros E. unfold then_run. destruct (result o); [by rewrite E|done].
Qed.

Lemma then_run_mret_trace {A B} (o : Outcome World A) (f : A → B) :
  trace (then_run native o (λ a, mret (f a))) = trace o.
Proof.
  rewrite then_run_trace. destruct (result o); apply app_nil_r.
Qed.

Lemma then_run_Forall {A B} (P : Call → Prop) (o : Outcome World A)
    (k : A → Prog B) :
  Forall P (trace o) →
  (∀ a, Forall P (trace (run native (k a) (final o)))) →
  Forall P (trace (then_run native o k)).
Proof.
  intros Ho Hk. rewrite then_run_trace. apply Forall_app. split; [done|].
  destruct (result o); [apply Hk|constructor].
Qed.

Lemma run_lift {A} (r : Result A) w :
  run native (lift r) w = {| final := w; trace := []; result := r |}.
Proof. by destruct r. Qed.

End Running.

(** ** Calls that are handed to the native widget *)

Section Forwarding.

Context {World : Type} (native : Native World).

Lemma run_forward {A} c (self : A) w :
  run native (_ ← call c; mret self) w = forwarded native c w (λ _, self).
Proof. apply (run_call_ret native c (λ _, self)). Qed.

Lemma forwarded_then {A B} c (value : Resp c → A) (f : A → B) w :
  then_run native (forwarded native c w value) (λ a, mret (f a)) =
  forwarded native c w (λ r, f (value r)).
Proof.
  unfold forwarded, then_run.
  by destruct (native c w) as [[r|e] w'].
Qed.

Lemma run_destroy (self : Object) w :
  run native (destroy self) w =
  forwarded native (tk_destroy (widget self)) w (λ _, self).
Proof.
  destruct self as [o|o|o|o]; cbn [destroy widget]; rewrite run_bind;
    [unfold Button.destroy|unfold Text.destroy
    |unfold Image.destroy|unfold Input.destroy];
    rewrite run_forward; apply forwarded_then.
Qed.

Lemma run_get (self : Input.t) w :
  run native (Input.get self) w =
  forwarded native (tk_get (Input.input_obj self)) w (λ value, (self, value)).
Proof.
  unfold Input.get.
  apply (run_call_ret native (tk_get (Input.input_obj self))
           (λ value, (self, value))).
Qed.

(** C7: for each of the four classes, [config] with keyword arguments is
    exactly one call of the native widget's [config] with the same keyword
    arguments: nothing is checked or changed on the way, the method returns
    when the native call returns and raises the native call's exception
    when it raises, and the instance is as before. *)
Theorem config_forwards_to_native_widget (self : Object) kwargs w :
  run native (config self kwargs) w =
  match native (tk_config (widget self) kwargs) w with
  | (Ok _, w') =>
      {| final := w';
         trace := [tk_config (widget self) kwargs];
         result := Ok self |}
  | (Err e, w') =>
      {| final := w';
         trace := [tk_config (widget self) kwargs];
         result := Err e |}
  end.
Proof.
  destruct self as [o|o|o|o]; cbn [config widget]; rewrite run_bind;
    [unfold Button.config|unfold Text.config
    |unfold Image.config|unfold Input.config];
    rewrite run_forward; apply forwarded_then.
Qed.

(** C8: for each of the four classes, [destroy()] is one call of the
    native widget's [destroy] and nothing else: it returns or raises as
    that call does.  Nothing remembers that it was called: after a first
    [destroy()] that returned, a second one makes the same native call
    again, and it raises exactly when, and what, the native layer raises
    for that repeated call. *)
Theorem destroy_twice_is_two_native_calls (self : Object) w w1 :
  native (tk_destroy (widget self)) w = (Ok tt, w1) →
  (∀ w0, run native (destroy self) w0 =
         match native (tk_destroy (widget self)) w0 with
         | (Ok _, w') =>
             {| final := w';
                trace := [tk_destroy (widget self)];
                result := Ok self |}
         | (Err e, w') =>
             {| final := w';
                trace := [tk_destroy (widget self)];
                result := Err e |}
         end)
  ∧ run native (self ← destroy self; destroy self) w =
    match native (tk_destroy (widget self)) w1 with
    | (Ok _, w2) =>
        {| final := w2;
           trace := [tk_destroy (widget self); tk_destroy (widget self)];
           result := Ok self |}
    | (Err e, w2) =>
        {| final := w2;
           trace := [tk_destroy (widget self); tk_destroy (widget self)];
           result := Err e |}
    end.
Proof.
  intros E. split; [intros w0; apply run_destroy|].
  rewrite run_bind, run_destroy. unfold forwarded at 1. rewrite E.
  unfold then_run. cbn [result final trace].
  rewrite run_destroy. unfold forwarded.
  by destruct (native (tk_destroy (widget self)) w1) as [[r|e] w2].
Qed.

(** C10: [Image.destroy()] makes one native call, the [destroy] of the
    label, and the instance it leaves is the instance it was given: the
    field [_photo_image] holds what it held before. *)
Theorem Image_destroy_leaves_photo_image (self : Image.t) w :
  let o := run native (Image.destroy self) w in
  trace o = [tk_destroy (Image.image_obj self)]
  ∧ final o = (native (tk_destroy (Image.image_obj self)) w).2
  ∧ ∀ self', result o = Ok self' →
      self' = self ∧ Image._photo_image self' = Image._photo_image self.
Proof.
  unfold Image.destroy. rewrite run_forward. unfold forwarded.
  destruct (native (tk_destroy (Image.image_obj self)) w) as [[r|e] w'];
    simpl; repeat split; try congruence; intros self' [= <-]; done.
Qed.

(** C5: [Input.get()] is one call of the entry's [get].  When the entry
    holds the text [s], so that the native read returns [s], [get()]
    returns that very string.  It has no effect of its own: the instance
    is unchanged, the read is the only foreign call, and the foreign world
    is the one the native read left (the same world, when the native read
    changes nothing). *)
Theorem Input_get_returns_entry_text (self : Input.t) w s w' :
  native (tk_get (Input.input_obj self)) w = (Ok s, w') →
  run native (Input.get self) w =
    {| final := w';
       trace := [tk_get (Input.input_obj self)];
       result := Ok (self, s) |}.
Proof.
  intros E. rewrite run_get. unfold forwarded. by rewrite E.
Qed.

End Forwarding.

(** ** Python arithmetic: what [int(f)] and the scaling compute *)

(** [int(f)] on a float with a fractional part drops the fraction: the
    result has the sign of [f] and the largest magnitude not above it. *)
Lemma to_int_truncates (s : bool) (m : positive) (e z : Z) :
  e < 0 →
  PyFloat.to_int (S754_finite s m e) = Ok z →
  z = (if s then - Z.abs z else Z.abs z)
  ∧ Z.abs z * 2 ^ (- e) ≤ Zpos m < (Z.abs z + 1) * 2 ^ (- e).
Proof.
  intros He Hz. destruct e as [|e|e]; try lia.
  cbn [PyFloat.to_int] in Hz. injection Hz as <-.
  rewrite Z.shiftr_div_pow2 by lia.
  set (d := 2 ^ (- Z.neg e)).
  assert (0 < d) as Hd by (apply Z.pow_pos_nonneg; lia).
  assert (0 ≤ Zpos m / d) as Hq by (apply Z.div_pos; lia).
  assert (Z.abs (if s then - (Zpos m / d) else Zpos m / d) = Zpos m / d) as ->.
  { destruct s; lia. }
  split; [done|].
  pose proof (Z.mul_div_le (Zpos m) d Hd).
  pose proof (Z.mul_succ_div_gt (Zpos m) d Hd).
  lia.
Qed.

(** On a float without fractional part [int(f)] is exact. *)
Lemma to_int_integral (s : bool) (m : positive) (e : Z) :
  0 ≤ e →
  PyFloat.to_int (S754_finite s m e) =
    Ok ((if s then -1 else 1) * (Zpos m * 2 ^ e)).
Proof.
  intros He. destruct e as [|e|e]; try lia; cbn [PyFloat.to_int].
  - destruct s; f_equal; lia.
  - rewrite Z.shiftl_mul_pow2 by lia. destruct s; f_equal; lia.
Qed.

(** The picture of 200 by 100: both scalings are exact. *)
Example scaled_height_of_200_by_100 : PyFloat.scaled 100 100 200 = Ok 50.
Proof. vm_compute. reflexivity. Qed.

Example scaled_width_of_200_by_100 : PyFloat.scaled 200 50 100 = Ok 100.
Proof. vm_compute. reflexivity. Qed.

(** The quotient is rounded to a float before it is multiplied, so the
    result can fall short of the exact one: [1 / 49] times 49 is just
    below 1 and truncates to 0. *)
Example scaled_rounds_the_quotient_first : PyFloat.scaled 49 1 49 = Ok 0.
Proof. vm_compute. reflexivity. Qed.

(** Division by a zero size and results too large for a float raise. *)
Example scaled_by_zero : PyFloat.scaled 100 100 0 = Err ZeroDivisionError.
Proof. reflexivity. Qed.

Example scaled_too_large : PyFloat.scaled 1 (2 ^ 1024) 1 = Err OverflowError.
Proof. vm_compute. reflexivity. Qed.

(** *** Rounding to binary64, from the standard library's definitions *)









Lemma round_nearest_even_exact (m : Z) : round_nearest_even m loc_Exact = m.
Proof. reflexivity. Qed.











(** The bound is attained: 29/100 is rounded down to a float, the product
    with 100 falls just short of 29, and the result is 28. *)
Example scaled_falls_one_short : PyFloat.scaled 100 29 100 = Ok 28.
Proof. vm_compute. reflexivity. Qed.

(** ** Traces *)

Lemma resize_calls_none (tr : list Call) :
  Forall (λ c, is_resize c = false) tr → resize_calls tr = [].
Proof.
  induction 1 as [|c tr Hc _ IH]; [reflexivity|].
  destruct c; try discriminate Hc; exact IH.
Qed.

Lemma resize_calls_app (t1 t2 : list Call) :
  resize_calls (t1 ++ t2) = resize_calls t1 ++ resize_calls t2.
Proof. apply omap_app. Qed.

(** ** Facts that hold on every path of a program *)

Lemma always_run {World A} (native : Native World)
    (Q : list Call → Result A → Prop) (p : Prog A) past w :
  always Q p past →
  Q (past ++ trace (run native p w)) (result (run native p w)).
Proof.
  revert past w. induction p as [a|e|c k IH]; intros past w Hp; simpl.
  - by rewrite app_nil_r.
  - by rewrite app_nil_r.
  - destruct Hp as [He Hr].
    destruct (native c w) as [[r|e] w']; simpl.
    + specialize (IH r (past ++ [c]) w' (Hr r)).
      by rewrite <- app_assoc in IH.
    + apply He.
Qed.

(** Case analysis on the tests and fallible steps a constructor goes
    through. *)
Ltac branch :=
  match goal with
  | |- context [lift ?r] => destruct r eqn:?
  | |- context [if ?b then _ else _] => destruct b eqn:?
  | |- context [let '(_, _) := ?p in _] => destruct p eqn:?
  end.

Ltac trace_goal :=
  match goal with
  | H : _ ∈ [] |- _ => by apply elem_of_nil in H
  | H : _ ∈ [_] |- _ => apply list_elem_of_singleton in H; subst; reflexivity
  | H : Err _ = Ok _ |- _ => discriminate H
  | H : Ok _ = Ok _ |- _ => injection H as <-; reflexivity
  end.

Ltac paths := repeat (cbn; first [branch | split | intro]); cbn in *.

Lemma prefix_iff (p s : string) :
  String.prefix p s = true ↔ ∃ rest, s = (p ++ rest)%string.
Proof.
  revert s. induction p as [|a p IH]; intros s.
  - split; [intros _; by exists s|intros _; by destruct s].
  - destruct s as [|b s]; simpl.
    + split; [discriminate|]. intros [rest E]. discriminate E.
    + destruct (Ascii.ascii_dec a b) as [->|Hne].
      * rewrite IH. split; intros [rest E]; exists rest;
          change (String b p +:+ rest) with (String b (p +:+ rest)) in *;
          congruence.
      * split; [discriminate|]. intros [rest E].
        change (String a p +:+ rest) with (String a (p +:+ rest)) in E.
        congruence.
Qed.

Section Construction.

Context {World : Type} (native : Native World).

(** C1: whichever of the four classes is instantiated, when the first
    argument is not a Screen instance the constructor raises TypeError
    and has made no foreign call at all: no widget is created, and for
    Image nothing is fetched, decoded or converted. *)
Theorem not_a_Screen_raises_before_any_call
    (cls : Class) screen_obj packargs kwargs w :
  isinstance_Screen screen_obj = None →
  run native (new cls screen_obj packargs kwargs) w =
    {| final := w;
       trace := [];
       result := Err (TypeError "screen_obj must be an instance of Screen") |}.
Proof.
  intros E.
  destruct cls; cbn [new];
    [unfold Button.__init__|unfold Text.__init__
    |unfold Image.__init__|unfold Input.__init__];
    rewrite E; reflexivity.
Qed.

Lemma not_None_items_lookup (packargs : Dict) k v :
  not_None_items packargs !! k = Some v ↔
  packargs !! k = Some v ∧ v ≠ PyNone.
Proof. unfold not_None_items. by rewrite map_lookup_filter_Some. Qed.




Lemma keywords_other_key (d : Dict) k v :
  d !! k = Some v → is_str k = false → ∃ msg, keywords d = Err (TypeError msg).
Proof.
  intros Hk Hstr. unfold keywords. rewrite decide_False; [eauto|].
  intros H. apply H in Hk. congruence.
Qed.






(** *** Image: loading *)

Lemma load_calls source :
  always (λ tr _,
      Forall (λ c, is_resize c = false) tr
      ∧ if Image.is_url source
        then Forall (λ c, is_open_path c = false) tr
             ∧ ∀ c, head tr = Some c → c = requests_get source
        else Forall (λ c, is_fetch c = false) tr
             ∧ ∀ c, head tr = Some c → c = PILImage_open (Path source))
    (Image.load source) [].
Proof.
  unfold Image.load. destruct (Image.is_url source); paths;
    repeat constructor; congruence.
Qed.

Lemma resized_calls pil_img width height :
  always (λ tr _,
      Forall (λ c, is_fetch c = false ∧ is_open_path c = false) tr)
    (Image.resized pil_img width height) [].
Proof. unfold Image.resized. paths; repeat constructor. Qed.

Lemma display_calls screen pil_img packargs kwargs :
  always (λ tr _,
      Forall (λ c, is_fetch c = false ∧ is_open_path c = false
                   ∧ is_resize c = false) tr)
    (Image.display screen pil_img packargs kwargs) [].
Proof. unfold Image.display. paths; repeat constructor. Qed.

Lemma load_http_error source w resp w1 :
  Image.is_url source = true →
  native (requests_get source) w = (Ok resp, w1) →
  400 ≤ status_code resp < 600 →
  run native (Image.load source) w =
    {| final := w1;
       trace := [requests_get source];
       result := Err (HTTPError (status_code resp)) |}.
Proof.
  intros Hurl Hget Hstatus. unfold Image.load. rewrite Hurl. cbn.
  rewrite Hget. unfold raise_for_status.
  replace ((400 <=? status_code resp) && (status_code resp <? 600))
    with true; [reflexivity|].
  symmetry. apply andb_true_iff. lia.
Qed.

(** C4: when the source is a URL and the response to the GET carries an
    error status (4xx or 5xx, such as 404), constructing the Image raises
    HTTPError, and the GET is the only foreign call that was made:
    nothing is decoded, no PhotoImage is made, no label is created or
    packed. *)
Theorem http_error_status_stops_construction
    screen_obj screen source packargs width height kwargs w resp w1 :
  isinstance_Screen screen_obj = Some screen →
  Image.is_url source = true →
  native (requests_get source) w = (Ok resp, w1) →
  400 ≤ status_code resp < 600 →
  run native (new (Image_class source width height) screen_obj packargs
                kwargs) w =
    {| final := w1;
       trace := [requests_get source];
       result := Err (HTTPError (status_code resp)) |}.
Proof.
  intros Hscreen Hurl Hget Hstatus.
  cbn [new]. unfold Image.__init__. rewrite Hscreen.
  rewrite !run_bind, (load_http_error _ _ _ _ Hurl Hget Hstatus).
  reflexivity.
Qed.

Lemma load_url source w :
  Image.is_url source = true →
  ∃ later, trace (run native (Image.load source) w) =
           requests_get source :: later.
Proof.
  intros Hurl. unfold Image.load. rewrite Hurl. cbn.
  destruct (native (requests_get source) w) as [[resp|e] w1]; cbn; eauto.
Qed.

Lemma load_url_decodes_content source w resp w1 :
  Image.is_url source = true →
  native (requests_get source) w = (Ok resp, w1) →
  raise_for_status resp = Ok tt →
  trace (run native (Image.load source) w) =
    [requests_get source; PILImage_open (BytesIO (content resp))].
Proof.
  intros Hurl Hget Hstatus. unfold Image.load. rewrite Hurl. cbn.
  rewrite Hget, Hstatus. cbn.
  by destruct (native (PILImage_open (BytesIO (content resp))) w1)
    as [[im|e] w2].
Qed.

Lemma load_path source w :
  Image.is_url source = false →
  trace (run native (Image.load source) w) = [PILImage_open (Path source)].
Proof.
  intros Hurl. unfold Image.load. rewrite Hurl. cbn.
  by destruct (native (PILImage_open (Path source)) w) as [[im|e] w1].
Qed.

(** *** Image: the whole constructor, phase by phase *)

Lemma run_new_Image screen_obj screen source packargs width height kwargs w :
  isinstance_Screen screen_obj = Some screen →
  run native (new (Image_class source width height) screen_obj packargs
                kwargs) w =
  then_run native
    (then_run native
       (then_run native (run native (Image.load source) w)
          (λ pil_img, Image.resized pil_img width height))
       (λ pil_img, Image.display screen pil_img (default ∅ packargs) kwargs))
    (λ o, mret (an_Image o)).
Proof.
  intros Hscreen. cbn [new]. unfold Image.__init__. rewrite Hscreen.
  by rewrite !run_bind, then_run_assoc.
Qed.

Lemma new_Image_trace screen_obj screen source packargs width height kwargs w :
  isinstance_Screen screen_obj = Some screen →
  ∃ later,
    trace (run native (new (Image_class source width height) screen_obj
                         packargs kwargs) w) =
    trace (run native (Image.load source) w) ++ later.
Proof.
  intros Hscreen. rewrite (run_new_Image _ _ _ _ _ _ _ _ Hscreen).
  rewrite !then_run_trace, <- !app_assoc. eauto.
Qed.

Lemma new_Image_Forall (P : Call → Prop)
    screen_obj screen source packargs width height kwargs w :
  isinstance_Screen screen_obj = Some screen →
  Forall P (trace (run native (Image.load source) w)) →
  (∀ c, is_fetch c = false ∧ is_open_path c = false → P c) →
  Forall P (trace (run native (new (Image_class source width height)
                                 screen_obj packargs kwargs) w)).
Proof.
  intros Hscreen Hload HP. rewrite (run_new_Image _ _ _ _ _ _ _ _ Hscreen).
  repeat apply then_run_Forall; try done.
  - intros im.
    eapply Forall_impl;
      [apply (always_run native _ _ [] _ (resized_calls im width height))|].
    exact HP.
  - intros im.
    eapply Forall_impl;
      [apply (always_run native _ _ [] _
                (display_calls screen im (default ∅ packargs) kwargs))|].
    cbn. intros c (? & ? & _). by apply HP.
Qed.

Lemma new_Image_resize_calls
    screen_obj screen source packargs width height kwargs w pil_img :
  isinstance_Screen screen_obj = Some screen →
  result (run native (Image.load source) w) = Ok pil_img →
  resize_calls
    (trace (run native (new (Image_class source width height) screen_obj
                          packargs kwargs) w)) =
  resize_calls
    (trace (run native (Image.resized pil_img width height)
              (final (run native (Image.load source) w)))).
Proof.
  intros Hscreen Hload. rewrite (run_new_Image _ _ _ _ _ _ _ _ Hscreen).
  rewrite then_run_mret_trace, (then_run_Ok native _ _ pil_img Hload).
  rewrite then_run_trace. cbn [result final trace].
  rewrite !resize_calls_app.
  rewrite (resize_calls_none (trace (run native (Image.load source) w))).
  2: { destruct (always_run native _ _ [] w (load_calls source)) as [H _].
       exact H. }
  match goal with
  | |- _ ++ resize_calls ?d = _ => assert (resize_calls d = []) as ->
  end; [|by rewrite app_nil_r].
  destruct (result (run native (Image.resized pil_img width height) _))
    as [im|e]; [|reflexivity].
  apply resize_calls_none.
  eapply Forall_impl;
    [apply (always_run native _ _ [] _
              (display_calls screen im (default ∅ packargs) kwargs))|].
  cbn. tauto.
Qed.

(** C6: whether the source is a URL is decided by how the string starts.
    When it starts with "http://" or "https://", the first foreign call is
    a GET of the source, no file name is ever given to the decoder, and
    when the GET returns a response without an error status the decoder
    is called next on the bytes of that response.  For any other source
    the first foreign call gives the source to the decoder as a file
    name, and nothing is fetched. *)
Theorem source_is_a_URL_by_its_prefix
    screen_obj screen source packargs width height kwargs w :
  isinstance_Screen screen_obj = Some screen →
  let o := run native (new (Image_class source width height) screen_obj
                         packargs kwargs) w in
  ((∃ rest, source = ("http://" ++ rest)%string
            ∨ source = ("https://" ++ rest)%string) →
     (∃ later, trace o = requests_get source :: later)
     ∧ (∀ name, PILImage_open (Path name) ∉ trace o)
     ∧ ∀ resp w1,
         native (requests_get source) w = (Ok resp, w1) →
         raise_for_status resp = Ok tt →
         ∃ later, trace o = requests_get source
                            :: PILImage_open (BytesIO (content resp))
                            :: later)
  ∧ ((∀ rest, source ≠ ("http://" ++ rest)%string
              ∧ source ≠ ("https://" ++ rest)%string) →
     (∃ later, trace o = PILImage_open (Path source) :: later)
     ∧ ∀ url, requests_get url ∉ trace o).
Proof.
  intros Hscreen o.
  destruct (new_Image_trace _ _ source packargs width height kwargs w Hscreen)
    as [later Htrace].
  fold o in Htrace.
  pose proof (always_run native _ _ [] w (load_calls source)) as [_ Hload].
  cbn [app] in Hload.
  split.
  - intros Hprefix.
    assert (Image.is_url source = true) as Hurl.
    { unfold Image.is_url. apply orb_true_iff.
      destruct Hprefix as [rest [E|E]]; [left|right];
        apply prefix_iff; eauto. }
    rewrite Hurl in Hload. destruct Hload as [Hnopath _].
    split; [|split].
    + destruct (load_url source w Hurl) as [l E].
      rewrite Htrace, E. cbn. eauto.
    + intros name Hin.
      assert (Forall (λ c, is_open_path c = false) (trace o)) as Hall.
      { apply (new_Image_Forall _ _ _ _ _ _ _ _ _ Hscreen Hnopath). tauto. }
      rewrite Forall_forall in Hall. by apply Hall in Hin.
    + intros resp w1 Hget Hstatus.
      rewrite Htrace, (load_url_decodes_content _ _ _ _ Hurl Hget Hstatus).
      cbn. eauto.
  - intros Hprefix.
    assert (Image.is_url source = false) as Hurl.
    { unfold Image.is_url. apply orb_false_iff.
      split; apply not_true_is_false; rewrite prefix_iff;
        intros [rest E]; by destruct (Hprefix rest). }
    rewrite Hurl in Hload. destruct Hload as [Hnofetch _].
    split.
    + rewrite Htrace, (load_path source w Hurl). cbn. eauto.
    + intros url Hin.
      assert (Forall (λ c, is_fetch c = false) (trace o)) as Hall.
      { apply (new_Image_Forall _ _ _ _ _ _ _ _ _ Hscreen Hnofetch). tauto. }
      rewrite Forall_forall in Hall. by apply Hall in Hin.
Qed.

(** *** Image: resizing *)

Lemma resized_neither pil_img width height w :
  truthy width = false → truthy height = false →
  run native (Image.resized pil_img width height) w =
    {| final := w; trace := []; result := Ok pil_img |}.
Proof. intros Hw Hh. unfold Image.resized. by rewrite Hw, Hh. Qed.


Lemma resized_height_only pil_img width height w :
  height ≠ 0 → truthy width = false →
  trace (run native (Image.resized pil_img width (Some height)) w) =
    match PyFloat.scaled (size pil_img).1 height (size pil_img).2 with
    | Ok wd => [PILImage_resize pil_img (Some wd, Some height) LANCZOS]
    | Err _ => []
    end.
Proof.
  intros Hh Hw. unfold Image.resized.
  assert (truthy (Some height) = true) as ->.
  { cbn. by apply negb_true_iff, Z.eqb_neq. }
  rewrite Hw. destruct (size pil_img) as [orig_w orig_h]. cbn.
  destruct (PyFloat.scaled orig_w height orig_h) as [wd|e]; cbn; [|done].
  by destruct (native _ w) as [[im|e] w1].
Qed.

Lemma resized_zero_width pil_img height :
  Image.resized pil_img (Some 0) height = Image.resized pil_img None height.
Proof.
  unfold Image.resized. destruct (size pil_img) as [orig_w orig_h].
  by destruct height as [[|h|h]|].
Qed.

Lemma resized_zero_height pil_img width :
  Image.resized pil_img width (Some 0) = Image.resized pil_img width None.
Proof.
  unfold Image.resized. destruct (size pil_img) as [orig_w orig_h].
  by destruct width as [[|wd|wd]|].
Qed.


(** C9: a width or height of 0 is treated as one that was not given.
    Constructing with [width=0] does what constructing without a width
    does, and likewise for the height.  So with [width=0] and no height
    no resize is asked for, and with [width=0] and a height [h > 0] the
    resize asked for has the width [int(orig_w * (h / orig_h))] and the
    height [h]. *)
Theorem zero_dimension_counts_as_not_given
    screen_obj screen source packargs kwargs w pil_img :
  isinstance_Screen screen_obj = Some screen →
  result (run native (Image.load source) w) = Ok pil_img →
  let construct width height :=
    run native (new (Image_class source width height) screen_obj packargs
                  kwargs) w in
  (∀ height, construct (Some 0) height = construct None height)
  ∧ (∀ width, construct width (Some 0) = construct width None)
  ∧ resize_calls (trace (construct (Some 0) None)) = []
  ∧ ∀ h, 0 < h →
      resize_calls (trace (construct (Some 0) (Some h))) =
        match PyFloat.scaled (size pil_img).1 h (size pil_img).2 with
        | Ok width => [(pil_img, (Some width, Some h))]
        | Err _ => []
        end.
Proof.
  intros Hscreen Hload construct. unfold construct. repeat split.
  - intros height. rewrite !(run_new_Image _ _ _ _ _ _ _ _ Hscreen).
    do 2 f_equal. apply then_run_ext. intros im. apply resized_zero_width.
  - intros width. rewrite !(run_new_Image _ _ _ _ _ _ _ _ Hscreen).
    do 2 f_equal. apply then_run_ext. intros im. apply resized_zero_height.
  - rewrite (new_Image_resize_calls _ _ _ _ _ _ _ _ _ Hscreen Hload).
    by rewrite resized_neither.
  - intros h Hh.
    rewrite (new_Image_resize_calls _ _ _ _ _ _ _ _ _ Hscreen Hload).
    rewrite resized_height_only by (done || lia).
    by destruct (PyFloat.scaled _ _ _).
Qed.

End Construction.

(** ** Concrete runs on the simulated foreign layer *)

(** Round trip on the simulated toolkit: whatever text is put into a live
    entry, [get()] returns it and leaves the world as it is. *)
Lemma get_after_type_text (self : Input.t) (s : string) (w : Sim.World) :
  is_Some (Sim.widgets w !! Input.input_obj self) →
  run Sim.native (Input.get self) (Sim.type_text (Input.input_obj self) s w) =
    {| final := Sim.type_text (Input.input_obj self) s w;
       trace := [tk_get (Input.input_obj self)];
       result := Ok (self, s) |}.
Proof.
  intros [nw Hnw]. rewrite run_get. unfold forwarded, Sim.type_text.
  rewrite Hnw. cbn. by rewrite lookup_insert_eq.
Qed.

Lemma not_a_Screen_raises_before_any_call_witness :
  isinstance_Screen (PyStr "window") = None
  ∧ run Sim.native
      (new (Image_class "https://example.org/logo.png" (Some 100) None)
         (PyStr "window") None ∅) (Sim.start true) =
    {| final := Sim.start true;
       trace := [];
       result := Err (TypeError "screen_obj must be an instance of Screen") |}.
Proof.
  split; [reflexivity|].
  apply (not_a_Screen_raises_before_any_call Sim.native). reflexivity.
Defined.



Lemma http_error_status_stops_construction_witness :
  run Sim.native (Runs.image "https://example.org/gone.png" None None)
    (Sim.start true) =
  {| final := Sim.start true;
     trace := [requests_get "https://example.org/gone.png"];
     result := Err (HTTPError 404) |}.
Proof.
  apply (http_error_status_stops_construction Sim.native Sim.window
           {| root := 1%positive |} "https://example.org/gone.png" None None
           None ∅ (Sim.start true)
           {| status_code := 404; content := [] |} (Sim.start true)).
  - reflexivity.
  - reflexivity.
  - vm_compute. reflexivity.
  - simpl. lia.
Defined.

Lemma Input_get_returns_entry_text_witness :
  run Sim.native (Input.get Runs.entry) Runs.typed =
  {| final := Runs.typed;
     trace := [tk_get 2%positive];
     result := Ok (Runs.entry, "hello") |}.
Proof.
  apply (Input_get_returns_entry_text Sim.native Runs.entry Runs.typed
           "hello" Runs.typed).
  vm_compute. reflexivity.
Defined.

Lemma destroy_twice_is_two_native_calls_witness :
  result (run Sim.native (self ← destroy Runs.button; destroy self)
            (Runs.with_button true)) = Err Sim.TclError.
Proof.
  destruct (destroy_twice_is_two_native_calls Sim.native Runs.button
              (Runs.with_button true) (Runs.without_button true))
    as [_ E].
  - vm_compute. reflexivity.
  - rewrite E. vm_compute. reflexivity.
Defined.

Lemma source_is_a_URL_by_its_prefix_witness :
  ∃ later,
    trace (run Sim.native
             (Runs.image "https://example.org/logo.png" None None)
             (Sim.start true)) =
    requests_get "https://example.org/logo.png"
    :: PILImage_open (BytesIO [Byte.xc8; Byte.x64]) :: later.
Proof.
  destruct (source_is_a_URL_by_its_prefix Sim.native Sim.window
              {| root := 1%positive |} "https://example.org/logo.png" None
              None None ∅ (Sim.start true) eq_refl) as [Hurl _].
  destruct Hurl as (_ & _ & Hdecode).
  - exists "example.org/logo.png". right. reflexivity.
  - apply (Hdecode {| status_code := 200; content := [Byte.xc8; Byte.x64] |}
             (Sim.start true)).
    + vm_compute. reflexivity.
    + reflexivity.
Defined.



Lemma zero_dimension_counts_as_not_given_witness :
  resize_calls
    (trace (run Sim.native (Runs.image "logo.png" (Some 0) None)
              (Sim.start true))) = []
  ∧ resize_calls
      (trace (run Sim.native (Runs.image "logo.png" (Some 0) (Some 50))
                (Sim.start true))) = [(Runs.logo, (Some 100, Some 50))].
Proof.
  destruct (zero_dimension_counts_as_not_given Sim.native Sim.window
              {| root := 1%positive |} "logo.png" None ∅ (Sim.start true)
              Runs.logo eq_refl) as (_ & _ & Hnone & Hheight).
  - vm_compute. reflexivity.
  - split; [exact Hnone|]. apply (Hheight 50). lia.
Defined.

(** Where the toolkit accepts a repeated destroy the second call returns;
    where it rejects it (see the run above) the second call raises. *)
Example destroy_twice_on_a_lenient_toolkit :
  result (run Sim.native (self ← destroy Runs.button; destroy self)
            (Runs.with_button false)) = Ok Runs.button.
Proof. vm_compute. reflexivity. Qed.

(** A picture of 49 by 49 constructed with [width=1] asks for a resize to
    height 0, which the toolkit refuses. *)
Example Image_width_1_of_49_by_49 :
  let o := run Sim.native (Runs.image "square.png" (Some 1) None)
             (Sim.start true) in
  resize_calls (trace o) =
    [({| im_id := 2%positive; size := (49, 49) |}, (Some 1, Some 0))]
  ∧ result o = Err ValueError.
Proof. vm_compute. split; reflexivity. Qed.

(** Packing options on a run: the entry with value [None] is dropped and
    the other one is passed on. *)
Example Text_packargs_on_a_run :
  pack_calls
    (trace (run Sim.native
              (new Text_class Sim.window
                 (Some {[ PyStr "side" := PyStr "left";
                          PyStr "padx" := PyNone ]}) ∅)
              (Sim.start true))) =
  [(2%positive, {[ "side" := PyStr "left" ]})].
Proof. vm_compute. reflexivity. Qed.

(** * Further properties *)

(** ** Constructors of [Button], [Text] and [Input] *)

Section Plain_construction.

Context {World : Type} (native : Native World).

Lemma run_new_plain (p : Plain) screen_obj screen packargs kwargs w :
  isinstance_Screen screen_obj = Some screen →
  run native (new (class_of p) screen_obj packargs kwargs) w =
  match native (tk_class p (root screen) kwargs) w with
  | (Ok r, w1) =>
      let h := made p (root screen) kwargs r in
      match keywords (not_None_items (default ∅ packargs)) with
      | Ok cnf =>
          match native (tk_pack h cnf) w1 with
          | (Ok _, w2) =>
              {| final := w2;
                 trace := [tk_class p (root screen) kwargs; tk_pack h cnf];
                 result := Ok (instance p h) |}
          | (Err e, w2) =>
              {| final := w2;
                 trace := [tk_class p (root screen) kwargs; tk_pack h cnf];
                 result := Err e |}
          end
      | Err e =>
          {| final := w1;
             trace := [tk_class p (root screen) kwargs];
             result := Err e |}
      end
  | (Err e, w1) =>
      {| final := w1;
         trace := [tk_class p (root screen) kwargs];
         result := Err e |}
  end.
Proof.
  intros Hscreen.
  destruct p; cbn [class_of new tk_class made instance];
    [unfold Button.__init__|unfold Text.__init__|unfold Input.__init__];
    rewrite Hscreen; cbn;
    (destruct (native _ w) as [[h|e] w1]; [|reflexivity]); cbn;
    (destruct (keywords _) as [cnf|e]; [|reflexivity]); cbn;
    by destruct (native _ w1) as [[[]|e] w2].
Qed.

(** X1: constructing a Button, Text or Input and destroying the instance
    destroys the native widget that the tkinter constructor returned: the
    run makes three calls, the constructor under the screen's root with
    the keyword arguments, [pack] on the new widget with the packing
    options as keywords, and [destroy] on that same widget. *)
Theorem construct_then_destroy_releases_the_created_widget
    (p : Plain) screen_obj screen packargs kwargs cnf w r w1 w2 :
  isinstance_Screen screen_obj = Some screen →
  keywords (not_None_items (default ∅ packargs)) = Ok cnf →
  native (tk_class p (root screen) kwargs) w = (Ok r, w1) →
  let h := made p (root screen) kwargs r in
  native (tk_pack h cnf) w1 = (Ok tt, w2) →
  result (run native (new (class_of p) screen_obj packargs kwargs) w) =
    Ok (instance p h)
  ∧ trace (run native (self ← new (class_of p) screen_obj packargs kwargs;
                       destroy self) w) =
    [tk_class p (root screen) kwargs; tk_pack h cnf; tk_destroy h].
Proof.
  intros Hscreen Hkw Hmake h Hpack.
  pose proof (run_new_plain p _ _ packargs kwargs w Hscreen) as Hrun.
  rewrite Hmake in Hrun. cbn zeta in Hrun. fold h in Hrun.
  rewrite Hkw, Hpack in Hrun.
  split; [by rewrite Hrun|].
  rewrite run_bind, Hrun. unfold then_run. cbn [result final trace].
  rewrite run_destroy. unfold forwarded.
  assert (widget (instance p h) = h) as -> by by destruct p.
  by destruct (native (tk_destroy h) w2) as [[[]|e] w3].
Qed.

(** X2: when [pack] raises, for instance on an option Tk does not know,
    the constructor raises the same exception after the native widget was
    created: no instance is returned and nothing destroys the widget. *)
Theorem failed_pack_leaves_the_native_widget
    (p : Plain) screen_obj screen packargs kwargs cnf w r w1 e w2 :
  isinstance_Screen screen_obj = Some screen →
  keywords (not_None_items (default ∅ packargs)) = Ok cnf →
  native (tk_class p (root screen) kwargs) w = (Ok r, w1) →
  let h := made p (root screen) kwargs r in
  native (tk_pack h cnf) w1 = (Err e, w2) →
  run native (new (class_of p) screen_obj packargs kwargs) w =
    {| final := w2;
       trace := [tk_class p (root screen) kwargs; tk_pack h cnf];
       result := Err e |}.
Proof.
  intros Hscreen Hkw Hmake h Hpack.
  rewrite (run_new_plain p _ _ packargs kwargs w Hscreen), Hmake.
  cbn zeta. fold h. by rewrite Hkw, Hpack.
Qed.

End Plain_construction.

(** ** All four constructors *)

Ltac created :=
  match goal with
  | H : _ ∈ [] |- _ => by apply elem_of_nil in H
  | H : _ ∈ [_] |- _ =>
      apply list_elem_of_singleton in H; subst; cbn; eauto
  end.

Section All_constructors.

Context {World : Type} (native : Native World).

Lemma new_creates_with_kwargs cls screen_obj packargs kwargs :
  always (λ tr _,
      ∀ p, p ∈ create_calls tr →
        isinstance_Screen screen_obj = Some {| root := p.1 |}
        ∧ match cls with
          | Image_class _ _ _ =>
              kwargs !! "image" = None
              ∧ ∃ photo, p.2 = <["image" := PyPhotoImage photo]> kwargs
          | _ => p.2 = kwargs
          end)
    (new cls screen_obj packargs kwargs) [].
Proof.
  destruct cls; cbn [new];
    [unfold Button.__init__|unfold Text.__init__
    |unfold Image.__init__, Image.load, Image.resized, Image.display,
       Image.with_image; destruct (kwargs !! "image") eqn:Himage
    |unfold Input.__init__];
    destruct (isinstance_Screen screen_obj) as [[master]|];
    paths; created.
Qed.

(** X3: the keyword arguments reach the tkinter constructor as they were
    given.  Every widget a constructor creates is created under the root
    of the screen it was given, and with exactly [kwargs]: entries whose
    value is [None] are not dropped here as they are from [packargs].
    For Image the options are [kwargs] with the entry [image] added, and
    [kwargs] itself had no [image]. *)
Theorem widget_is_created_under_root_with_kwargs
    (cls : Class) screen_obj packargs kwargs w master (cnf : Kwargs) :
  (master, cnf) ∈
    create_calls (trace (run native (new cls screen_obj packargs kwargs) w)) →
  isinstance_Screen screen_obj = Some {| root := master |}
  ∧ match cls with
    | Image_class _ _ _ =>
        kwargs !! "image" = None
        ∧ (∃ photo, cnf !! "image" = Some (PyPhotoImage photo))
        ∧ ∀ k, k ≠ "image" → cnf !! k = kwargs !! k
    | _ => cnf = kwargs
    end.
Proof.
  intros Hin.
  destruct (always_run native _ _ [] w
              (new_creates_with_kwargs cls screen_obj packargs kwargs)
              _ Hin) as [Hroot Hcnf].
  split; [exact Hroot|]. cbn in Hcnf.
  destruct cls; try exact Hcnf.
  destruct Hcnf as (Hnone & photo & ->). split; [exact Hnone|]. split.
  - exists photo. apply lookup_insert_eq.
  - intros k Hk. by apply lookup_insert_ne.
Qed.

Lemma new_calls cls screen_obj packargs kwargs :
  always (λ tr _,
      Forall (λ c, is_method_call c = false) tr
      ∧ (length (create_calls tr) ≤ 1)%nat
      ∧ (length (pack_calls tr) ≤ 1)%nat
      ∧ (length (photo_calls tr) ≤ 1)%nat
      ∧ (length (resize_calls tr) ≤ 1)%nat
      ∧ (length (filter (λ c, is_fetch c = true) tr) ≤ 1)%nat)
    (new cls screen_obj packargs kwargs) [].
Proof.
  destruct cls; cbn [new];
    [unfold Button.__init__|unfold Text.__init__
    |unfold Image.__init__, Image.load, Image.resized, Image.display
    |unfold Input.__init__];
    destruct (isinstance_Screen screen_obj) as [screen|];
    paths; first [lia | by repeat constructor].
Qed.

(** X4: a constructor only creates.  Whatever the foreign layer answers,
    constructing a widget never configures, destroys or reads a widget,
    and it creates at most one native widget, packs at most once, and for
    an Image fetches, resizes and converts at most once each. *)
Theorem constructor_only_creates_once
    (cls : Class) screen_obj packargs kwargs w :
  let tr := trace (run native (new cls screen_obj packargs kwargs) w) in
  (∀ c, c ∈ tr → is_method_call c = false)
  ∧ (length (create_calls tr) ≤ 1)%nat
  ∧ (length (pack_calls tr) ≤ 1)%nat
  ∧ (length (photo_calls tr) ≤ 1)%nat
  ∧ (length (resize_calls tr) ≤ 1)%nat
  ∧ (length (filter (λ c, is_fetch c = true) tr) ≤ 1)%nat.
Proof.
  destruct (always_run native _ _ [] w
              (new_calls cls screen_obj packargs kwargs)) as [Hall Hrest].
  split; [|exact Hrest]. by apply Forall_forall.
Qed.

Lemma not_None_items_all_None (m : Dict) :
  (∀ k v, m !! k = Some v → v = PyNone) → not_None_items m = ∅.
Proof.
  intros Hm. apply map_eq. intros k. rewrite lookup_empty.
  apply eq_None_not_Some. intros [v Hv].
  apply not_None_items_lookup in Hv as [Hv Hne]. by apply Hm in Hv.
Qed.

(** X5: packing options that are all [None] count for nothing: a
    constructor given such a [packargs] is the constructor given no
    [packargs] at all, and [pack] is called without options. *)
Theorem packargs_of_None_values_is_no_packargs
    (cls : Class) screen_obj (packargs : Dict) kwargs :
  (∀ k v, packargs !! k = Some v → v = PyNone) →
  new cls screen_obj (Some packargs) kwargs = new cls screen_obj None kwargs
  ∧ not_None_items packargs = ∅
  ∧ keywords (not_None_items packargs) = Ok ∅.
Proof.
  intros Hm. pose proof (not_None_items_all_None packargs Hm) as E.
  split; [|split; [exact E|by rewrite E]].
  assert (not_None_items (∅ : Dict) = ∅) as E0.
  { apply not_None_items_all_None. intros k v. by rewrite lookup_empty. }
  destruct cls; cbn [new];
    [unfold Button.__init__|unfold Text.__init__
    |unfold Image.__init__, Image.display|unfold Input.__init__];
    change (default ∅ (Some packargs)) with packargs;
    change (default (∅ : Dict) None) with (∅ : Dict);
    cbv beta zeta; by rewrite E, E0.
Qed.

End All_constructors.

(** ** The constructor of [Image] *)

Section Image_construction.

Context {World : Type} (native : Native World).

Lemma run_new_Image_loaded
    screen_obj screen source packargs width height kwargs w pil_img :
  isinstance_Screen screen_obj = Some screen →
  result (run native (Image.load source) w) = Ok pil_img →
  let o1 := run native (Image.load source) w in
  let o2 := run native (Image.resized pil_img width height) (final o1) in
  run native (new (Image_class source width height) screen_obj packargs
                kwargs) w =
  match result o2 with
  | Ok resized =>
      let o3 := run native (Image.display screen resized (default ∅ packargs)
                              kwargs) (final o2) in
      {| final := final o3;
         trace := (trace o1 ++ trace o2) ++ trace o3;
         result := match result o3 with
                   | Ok o => Ok (an_Image o)
                   | Err e => Err e
                   end |}
  | Err e =>
      {| final := final o2; trace := trace o1 ++ trace o2; result := Err e |}
  end.
Proof.
  intros Hscreen Hload o1 o2.
  rewrite (run_new_Image native _ _ _ _ _ _ _ _ Hscreen).
  rewrite (then_run_Ok native _ _ pil_img Hload). fold o1 o2.
  unfold then_run. cbn [result final trace].
  destruct (result o2) as [resized|e]; cbn [result final trace]; [|done].
  destruct (result (run native _ (final o2))) as [o|e];
    cbn [result final trace]; [|done].
  by rewrite app_nil_r.
Qed.

Lemma run_display_Ok screen pil_img (packargs : Dict) (kwargs : Kwargs) w o :
  result (run native (Image.display screen pil_img packargs kwargs) w) = Ok o →
  kwargs !! "image" = None
  ∧ ∃ cnf,
      keywords (not_None_items packargs) = Ok cnf
      ∧ trace (run native (Image.display screen pil_img packargs kwargs) w) =
        [ImageTk_PhotoImage pil_img;
         tk_Label (root screen)
           (<["image" := PyPhotoImage (Image._photo_image o)]> kwargs);
         tk_pack (Image.image_obj o) cnf].
Proof.
  unfold Image.display, Image.with_image. cbn.
  destruct (native (ImageTk_PhotoImage pil_img) w) as [[photo|e] w1];
    [|discriminate].
  destruct (kwargs !! "image") as [v|]; [discriminate|]. cbn.
  destruct (native _ w1) as [[h|e] w2]; [|discriminate]. cbn.
  destruct (keywords (not_None_items packargs)) as [cnf|e]; [|discriminate].
  cbn.
  destruct (native _ w2) as [[[]|e] w3]; [|discriminate]. cbn.
  intros [= <-]. eauto.
Qed.

Lemma display_photo_calls screen pil_img (packargs : Dict) (kwargs : Kwargs) w :
  photo_calls
    (trace (run native (Image.display screen pil_img packargs kwargs) w)) =
  [pil_img].
Proof.
  unfold Image.display. cbn.
  destruct (native (ImageTk_PhotoImage pil_img) w) as [[photo|e] w1];
    [|reflexivity].
  destruct (Image.with_image photo kwargs) as [cnf|e]; [|reflexivity]. cbn.
  destruct (native _ w1) as [[h|e] w2]; [|reflexivity]. cbn.
  destruct (keywords (not_None_items packargs)) as [cnf'|e]; [|reflexivity].
  cbn. by destruct (native _ w2) as [[[]|e] w3].
Qed.

Lemma load_resized_no_photo source pil_img width height w w' :
  photo_calls (trace (run native (Image.load source) w)) = []
  ∧ photo_calls (trace (run native (Image.resized pil_img width height) w')) = [].
Proof.
  split.
  - assert (always (λ tr (_ : Result PilImage), photo_calls tr = [])
              (Image.load source) []) as H.
    { unfold Image.load. paths; reflexivity. }
    apply (always_run native _ _ [] w H).
  - assert (always (λ tr (_ : Result PilImage), photo_calls tr = [])
              (Image.resized pil_img width height) []) as H.
    { unfold Image.resized. paths; reflexivity. }
    apply (always_run native _ _ [] w' H).
Qed.

Lemma new_Image_with_image_keyword source width height screen_obj packargs
    (kwargs : Kwargs) v :
  kwargs !! "image" = Some v →
  always (λ tr res,
      (∀ self, res ≠ Ok self) ∧ create_calls tr = [] ∧ pack_calls tr = [])
    (new (Image_class source width height) screen_obj packargs kwargs) [].
Proof.
  intros Himage. cbn [new].
  unfold Image.__init__, Image.load, Image.resized, Image.display,
    Image.with_image.
  rewrite Himage.
  destruct (isinstance_Screen screen_obj) as [screen|];
    paths; first [discriminate | reflexivity].
Qed.

(** X6: an Image cannot be given an [image] keyword argument.  The
    constructor passes [image=] itself next to [kwargs], so with an entry
    [image] in [kwargs] it never returns an instance and never creates or
    packs a label, whatever the foreign layer does. *)
Theorem image_keyword_is_rejected
    source width height screen_obj packargs (kwargs : Kwargs) v w :
  kwargs !! "image" = Some v →
  let o := run native (new (Image_class source width height) screen_obj
                         packargs kwargs) w in
  (∀ self, result o ≠ Ok self)
  ∧ create_calls (trace o) = []
  ∧ pack_calls (trace o) = [].
Proof.
  intros Himage.
  apply (always_run native _ _ [] w
           (new_Image_with_image_keyword source width height screen_obj
              packargs kwargs v Himage)).
Qed.

(** X7: the label of a constructed Image displays the PhotoImage that the
    instance keeps.  When the constructor returns, its last three calls
    were the conversion to a PhotoImage, the creation of a label under the
    screen's root whose [image] option is the instance's [_photo_image]
    (the other options being [kwargs]), and [pack] on the instance's
    label with the packing options that are not [None] as keywords. *)
Theorem Image_label_displays_the_kept_photo
    screen_obj screen source packargs width height kwargs w o :
  isinstance_Screen screen_obj = Some screen →
  result (run native (new (Image_class source width height) screen_obj
                        packargs kwargs) w) = Ok (an_Image o) →
  ∃ before converted cnf,
    keywords (not_None_items (default ∅ packargs)) = Ok cnf
    ∧ trace (run native (new (Image_class source width height) screen_obj
                           packargs kwargs) w) =
      before ++
      [ImageTk_PhotoImage converted;
       tk_Label (root screen)
         (<["image" := PyPhotoImage (Image._photo_image o)]> kwargs);
       tk_pack (Image.image_obj o) cnf].
Proof.
  intros Hscreen.
  destruct (result (run native (Image.load source) w)) as [pil_img|e] eqn:Hload.
  - rewrite (run_new_Image_loaded _ _ _ packargs width height kwargs _ _
               Hscreen Hload).
    cbn zeta.
    destruct (result (run native (Image.resized pil_img width height) _))
      as [resized|e]; [|discriminate].
    cbn [result trace].
    destruct (result (run native (Image.display _ _ _ _) _)) as [o'|e] eqn:Hd;
      [|discriminate].
    intros [= ->]. apply run_display_Ok in Hd as (_ & cnf & Hkw & ->).
    eauto 10.
  - rewrite (run_new_Image native _ _ _ _ _ _ _ _ Hscreen).
    rewrite (then_run_Err native _ _ e Hload). discriminate.
Qed.

Lemma photo_calls_app (t1 t2 : list Call) :
  photo_calls (t1 ++ t2) = photo_calls t1 ++ photo_calls t2.
Proof. apply omap_app. Qed.

(** X8: the PhotoImage is made from the picture that comes out of the
    resizing step.  When [resize] returned a picture, that picture and not
    the decoded one is converted; when no dimension was asked for, the
    decoded picture itself is converted. *)
Theorem photo_is_made_from_the_resized_picture
    screen_obj screen source packargs width height kwargs w pil_img resized :
  isinstance_Screen screen_obj = Some screen →
  result (run native (Image.load source) w) = Ok pil_img →
  result (run native (Image.resized pil_img width height)
            (final (run native (Image.load source) w))) = Ok resized →
  photo_calls
    (trace (run native (new (Image_class source width height) screen_obj
                          packargs kwargs) w)) = [resized]
  ∧ (truthy width = false → truthy height = false → resized = pil_img).
Proof.
  intros Hscreen Hload Hresized. split.
  - rewrite (run_new_Image_loaded _ _ _ packargs width height kwargs _ _
               Hscreen Hload).
    cbn zeta. rewrite Hresized. cbn [trace].
    rewrite !photo_calls_app, display_photo_calls.
    destruct (load_resized_no_photo source pil_img width height w
                (final (run native (Image.load source) w))) as [-> ->].
    reflexivity.
  - intros Hw Hh. rewrite (resized_neither native) in Hresized by done.
    by injection Hresized.
Qed.

Lemma resized_both pil_img width height w :
  width ≠ 0 → height ≠ 0 →
  trace (run native (Image.resized pil_img (Some width) (Some height)) w) =
    [PILImage_resize pil_img (Some width, Some height) LANCZOS].
Proof.
  intros Hw Hh. unfold Image.resized.
  assert (truthy (Some width) = true) as ->.
  { cbn. by apply negb_true_iff, Z.eqb_neq. }
  assert (truthy (Some height) = true) as ->.
  { cbn. by apply negb_true_iff, Z.eqb_neq. }
  destruct (size pil_img) as [orig_w orig_h]. cbn.
  by destruct (native _ w) as [[im|e] w1].
Qed.

(** X9: when both a width and a height are given, the picture is resized
    to exactly that size: the original size plays no part, so the aspect
    ratio is not kept and no division can fail. *)
Theorem both_dimensions_are_used_as_given
    screen_obj screen source packargs kwargs w pil_img width height :
  isinstance_Screen screen_obj = Some screen →
  result (run native (Image.load source) w) = Ok pil_img →
  width ≠ 0 → height ≠ 0 →
  resize_calls
    (trace (run native (new (Image_class source (Some width) (Some height))
                          screen_obj packargs kwargs) w)) =
  [(pil_img, (Some width, Some height))].
Proof.
  intros Hscreen Hload Hw Hh.
  rewrite (new_Image_resize_calls native _ _ _ _ _ _ _ _ _ Hscreen Hload).
  by rewrite resized_both.
Qed.

(** X10: a failure while loading ends the construction.  Whether the GET
    raised, the response had an error status, or the decoder rejected the
    file or the bytes, the constructor raises that exception and has made
    no call beyond those of the loading step: no PhotoImage, no label. *)
Theorem load_failure_stops_construction
    screen_obj screen source packargs width height kwargs w e :
  isinstance_Screen screen_obj = Some screen →
  result (run native (Image.load source) w) = Err e →
  run native (new (Image_class source width height) screen_obj packargs
                kwargs) w =
    {| final := final (run native (Image.load source) w);
       trace := trace (run native (Image.load source) w);
       result := Err e |}.
Proof.
  intros Hscreen Hload.
  rewrite (run_new_Image native _ _ _ _ _ _ _ _ Hscreen).
  by rewrite (then_run_Err native _ _ e Hload).
Qed.

Lemma scaled_by_zero_size other given :
  PyFloat.scaled other given 0 = Err ZeroDivisionError.
Proof. reflexivity. Qed.

Lemma resized_raises pil_img width height w e :
  (truthy width = true ∧ truthy height = false
   ∧ Result_bind (Image.operand width) (λ width,
       PyFloat.scaled (size pil_img).2 width (size pil_img).1) = Err e)
  ∨ (truthy height = true ∧ truthy width = false
     ∧ Result_bind (Image.operand height) (λ height,
         PyFloat.scaled (size pil_img).1 height (size pil_img).2) = Err e) →
  run native (Image.resized pil_img width height) w =
    {| final := w; trace := []; result := Err e |}.
Proof.
  unfold Image.resized. destruct (size pil_img) as [orig_w orig_h].
  cbn [fst snd].
  intros [(-> & -> & ->)|(Hh & Hw & E)]; [reflexivity|].
  rewrite Hh, Hw, E. reflexivity.
Qed.

(** X11: a picture with a side of zero pixels cannot be scaled by the
    other side's request.  With only a width given and an original width
    of 0, or only a height given and an original height of 0, the
    constructor raises ZeroDivisionError right after loading: no resize is
    asked for and no PhotoImage or label is made. *)
Theorem zero_sized_picture_raises_ZeroDivisionError
    screen_obj screen source packargs kwargs w pil_img :
  isinstance_Screen screen_obj = Some screen →
  result (run native (Image.load source) w) = Ok pil_img →
  let construct width height :=
    run native (new (Image_class source width height) screen_obj packargs
                  kwargs) w in
  let stopped :=
    {| final := final (run native (Image.load source) w);
       trace := trace (run native (Image.load source) w);
       result := Err ZeroDivisionError |} in
  (∀ width height,
     (size pil_img).1 = 0 → width ≠ 0 → truthy height = false →
     construct (Some width) height = stopped)
  ∧ (∀ width height,
       (size pil_img).2 = 0 → height ≠ 0 → truthy width = false →
       construct width (Some height) = stopped).
Proof.
  intros Hscreen Hload construct stopped.
  assert (∀ n, n ≠ 0 → truthy (Some n) = true) as Htruthy.
  { intros n Hn. cbn. by apply negb_true_iff, Z.eqb_neq. }
  split; intros width height Hsize Hne Hother; unfold construct, stopped;
    rewrite (run_new_Image_loaded _ _ _ packargs _ _ kwargs _ _
               Hscreen Hload);
    cbn zeta; rewrite (resized_raises _ _ _ _ ZeroDivisionError);
    cbn [result final trace]; try by rewrite app_nil_r.
  - left. rewrite Hsize. auto.
  - right. rewrite Hsize. auto.
Qed.

End Image_construction.

(** ** Arithmetic of the scaling *)

Lemma binary_round_aux_sign s m e l :
  has_sign s (binary_round_aux PyFloat.prec PyFloat.emax s m e l).
Proof.
  unfold binary_round_aux.
  destruct (shr_fexp _ _ m e l) as [mrs' e'].
  destruct (shr_fexp _ _ _ e' loc_Exact) as [mrs'' e''].
  destruct (shr_m mrs'') as [|p|p]; cbn; try done.
  by destruct (e'' <=? _).
Qed.

Lemma of_int_sign n f :
  0 ≤ n → PyFloat.of_int n = Ok f → has_sign false f.
Proof.
  intros Hn. unfold PyFloat.of_int, PyFloat.finite_or_overflow.
  destruct n as [|p|p]; try lia.
  - cbn. by intros [= <-].
  - cbn [binary_normalize]. unfold binary_round.
    destruct (shl_align _ _ _) as [mz ez].
    pose proof (binary_round_aux_sign false (Zpos mz) ez loc_Exact) as Hs.
    destruct (binary_round_aux _ _ _ _ _ _); intros [= <-]; exact Hs.
Qed.

Lemma int_truediv_sign a b f :
  0 ≤ a → 0 < b → PyFloat.int_truediv a b = Ok f → has_sign false f.
Proof.
  intros Ha Hb. unfold PyFloat.int_truediv, PyFloat.finite_or_overflow.
  destruct (Z.eqb_spec b 0) as [->|_]; [lia|].
  destruct b as [|q|q]; try lia.
  destruct a as [|p|p]; try lia.
  - cbn. by intros [= <-].
  - cbn [PyFloat.exact SFdiv].
    destruct (SFdiv_core_binary _ _ _ _ _ _) as [[mz ez] lz].
    pose proof (binary_round_aux_sign (xorb false false) mz ez lz) as Hs.
    destruct (binary_round_aux _ _ _ _ _ _); intros [= <-]; exact Hs.
Qed.

Lemma SFmul_sign x y :
  has_sign false x → has_sign false y →
  match SFmul PyFloat.prec PyFloat.emax x y with
  | S754_finite s _ _ => s = false
  | _ => True
  end.
Proof.
  destruct x as [sx|sx| |sx mx ex], y as [sy|sy| |sy my ey]; cbn; try done.
  intros -> ->.
  pose proof (binary_round_aux_sign (xorb false false)
                (Zpos (mx * my)) (ex + ey) loc_Exact) as Hs.
  by destruct (binary_round_aux _ _ _ _ _ _).
Qed.

Lemma to_int_nonneg m e z :
  PyFloat.to_int (S754_finite false m e) = Ok z → 0 ≤ z.
Proof.
  cbn. intros [= <-]. destruct e as [|e|e].
  - lia.
  - apply Z.shiftl_nonneg. lia.
  - apply Z.shiftr_nonneg. lia.
Qed.

(** X12: a side computed from a picture of positive size and a positive
    request is never negative (it can be 0). *)
Theorem scaled_side_is_not_negative (other given orig side : Z) :
  0 ≤ other → 0 < given → 0 < orig →
  PyFloat.scaled other given orig = Ok side →
  0 ≤ side.
Proof.
  intros Hother Hgiven Horig. unfold PyFloat.scaled, Result_bind.
  destruct (PyFloat.int_truediv given orig) as [ratio|e] eqn:Hdiv;
    [|discriminate].
  apply int_truediv_sign in Hdiv; [|lia|lia].
  unfold PyFloat.int_mul, Result_bind.
  destruct (PyFloat.of_int other) as [x|e] eqn:Hx; [|discriminate].
  apply of_int_sign in Hx; [|lia].
  pose proof (SFmul_sign x ratio Hx Hdiv) as Hs.
  destruct (SFmul _ _ x ratio) as [s|s| |s m e]; try discriminate.
  - cbn. intros [= <-]. lia.
  - subst s. apply to_int_nonneg.
Qed.

(** ** Methods on a destroyed widget *)

Section After_destroy.

Context {World : Type} (native : Native World).

(** X13: no method checks whether the widget was destroyed.  After a
    [destroy()] that returned, [config] still makes its native call on the
    same widget and returns or raises as that call does, and so does
    [get] on an Input. *)
Theorem methods_after_destroy_still_call_the_widget
    (self : Object) kwargs w w1 :
  native (tk_destroy (widget self)) w = (Ok tt, w1) →
  run native (self ← destroy self; config self kwargs) w =
    match native (tk_config (widget self) kwargs) w1 with
    | (Ok _, w2) =>
        {| final := w2;
           trace := [tk_destroy (widget self); tk_config (widget self) kwargs];
           result := Ok self |}
    | (Err e, w2) =>
        {| final := w2;
           trace := [tk_destroy (widget self); tk_config (widget self) kwargs];
           result := Err e |}
    end
  ∧ ∀ input, self = an_Input input →
      run native (input ← Input.destroy input; Input.get input) w =
        match native (tk_get (Input.input_obj input)) w1 with
        | (Ok value, w2) =>
            {| final := w2;
               trace := [tk_destroy (Input.input_obj input);
                         tk_get (Input.input_obj input)];
               result := Ok (input, value) |}
        | (Err e, w2) =>
            {| final := w2;
               trace := [tk_destroy (Input.input_obj input);
                         tk_get (Input.input_obj input)];
               result := Err e |}
        end.
Proof.
  intros E. split.
  - rewrite run_bind, run_destroy. unfold forwarded at 1. rewrite E.
    unfold then_run. cbn [result final trace].
    assert (run native (config self kwargs) w1 =
            forwarded native (tk_config (widget self) kwargs) w1 (λ _, self))
      as ->.
    { destruct self as [o|o|o|o]; cbn [config widget]; rewrite run_bind;
        [unfold Button.config|unfold Text.config
        |unfold Image.config|unfold Input.config];
        rewrite run_forward; apply forwarded_then. }
    unfold forwarded.
    by destruct (native (tk_config (widget self) kwargs) w1) as [[r|e] w2].
  - intros input ->. cbn [widget] in E.
    rewrite run_bind. unfold Input.destroy. rewrite run_forward.
    unfold forwarded at 1. rewrite E.
    unfold then_run. cbn [result final trace].
    rewrite run_get. unfold forwarded.
    by destruct (native (tk_get (Input.input_obj input)) w1) as [[r|e] w2].
Qed.

End After_destroy.

(** ** Concrete runs for the further properties *)

Lemma construct_then_destroy_releases_the_created_widget_witness :
  trace (run Sim.native
           (self ← new Button_class Sim.window None ∅; destroy self)
           (Sim.start true)) =
  [tk_Button 1%positive ∅; tk_pack 2%positive ∅; tk_destroy 2%positive].
Proof.
  pose proof (construct_then_destroy_releases_the_created_widget Sim.native
                plain_Button Sim.window {| root := 1%positive |} None ∅ ∅
                (Sim.start true) 2%positive
                (Sim.native (tk_Button 1%positive ∅) (Sim.start true)).2
                (Runs.with_button true) eq_refl) as H.
  specialize (H ltac:(vm_compute; reflexivity)).
  specialize (H ltac:(vm_compute; reflexivity)). cbn zeta in H.
  specialize (H ltac:(vm_compute; reflexivity)).
  destruct H as [_ H]. exact H.
Defined.

Lemma failed_pack_leaves_the_native_widget_witness :
  let o := run Picky.native
             (new Text_class Sim.window
                (Some {[ PyStr "colour" := PyStr "red" ]}) ∅)
             (Sim.start true) in
  result o = Err Sim.TclError
  ∧ is_Some (Sim.widgets (final o) !! 2%positive).
Proof.
  pose proof (failed_pack_leaves_the_native_widget Picky.native
                plain_Text Sim.window {| root := 1%positive |}
                (Some {[ PyStr "colour" := PyStr "red" ]}) ∅
                {[ "colour" := PyStr "red" ]}
                (Sim.start true) 2%positive
                (Sim.native (tk_Label 1%positive ∅) (Sim.start true)).2
                Sim.TclError
                (Sim.native (tk_Label 1%positive ∅) (Sim.start true)).2
                eq_refl) as H.
  specialize (H ltac:(vm_compute; reflexivity)).
  specialize (H ltac:(vm_compute; reflexivity)). cbn zeta in H.
  specialize (H ltac:(vm_compute; reflexivity)).
  cbv zeta. change (new Text_class) with (new (class_of plain_Text)).
  rewrite H. split; [reflexivity|]. vm_compute. eauto.
Defined.

Lemma widget_is_created_under_root_with_kwargs_witness :
  isinstance_Screen Sim.window = Some {| root := 1%positive |}
  ∧ ({[ "text" := PyStr "hi"; "bg" := PyNone ]} : Kwargs) =
    {[ "text" := PyStr "hi"; "bg" := PyNone ]}.
Proof.
  apply (widget_is_created_under_root_with_kwargs Sim.native Text_class
           Sim.window None {[ "text" := PyStr "hi"; "bg" := PyNone ]}
           (Sim.start true) 1%positive
           {[ "text" := PyStr "hi"; "bg" := PyNone ]}).
  vm_compute. apply list_elem_of_here.
Defined.

Lemma packargs_of_None_values_is_no_packargs_witness :
  new Button_class Sim.window (Some {[ PyStr "side" := PyNone ]}) ∅ =
  new Button_class Sim.window None ∅.
Proof.
  apply (packargs_of_None_values_is_no_packargs Button_class Sim.window
           {[ PyStr "side" := PyNone ]} ∅).
  intros k v H. apply lookup_singleton_Some in H as [_ <-]. reflexivity.
Defined.

Lemma image_keyword_is_rejected_witness :
  let o := run Sim.native
             (new (Image_class "logo.png" None None) Sim.window None
                {[ "image" := PyStr "other.png" ]}) (Sim.start true) in
  (∀ self, result o ≠ Ok self)
  ∧ create_calls (trace o) = []
  ∧ pack_calls (trace o) = [].
Proof.
  apply (image_keyword_is_rejected Sim.native "logo.png" None None Sim.window
           None {[ "image" := PyStr "other.png" ]} (PyStr "other.png")
           (Sim.start true)).
  vm_compute. reflexivity.
Defined.

Lemma Image_label_displays_the_kept_photo_witness :
  ∃ before converted cnf,
    keywords (not_None_items (default ∅ None)) = Ok cnf
    ∧ trace (run Sim.native (Runs.image "logo.png" None None)
               (Sim.start true)) =
      before ++
      [ImageTk_PhotoImage converted;
       tk_Label 1%positive {[ "image" := PyPhotoImage 3%positive ]};
       tk_pack 4%positive cnf].
Proof.
  apply (Image_label_displays_the_kept_photo Sim.native Sim.window
           {| root := 1%positive |} "logo.png" None None None ∅
           (Sim.start true)
           {| Image.image_obj := 4%positive;
              Image._photo_image := 3%positive |} eq_refl).
  vm_compute. reflexivity.
Defined.

Lemma photo_is_made_from_the_resized_picture_witness :
  photo_calls
    (trace (run Sim.native (Runs.image "logo.png" (Some 100) None)
              (Sim.start true))) =
  [{| im_id := 3%positive; size := (100, 50) |}].
Proof.
  destruct (photo_is_made_from_the_resized_picture Sim.native Sim.window
              {| root := 1%positive |} "logo.png" None (Some 100) None ∅
              (Sim.start true) Runs.logo
              {| im_id := 3%positive; size := (100, 50) |} eq_refl)
    as [H _].
  - vm_compute. reflexivity.
  - vm_compute. reflexivity.
  - exact H.
Defined.

Lemma both_dimensions_are_used_as_given_witness :
  resize_calls
    (trace (run Sim.native (Runs.image "logo.png" (Some 30) (Some 40))
              (Sim.start true))) =
  [(Runs.logo, (Some 30, Some 40))].
Proof.
  apply (both_dimensions_are_used_as_given Sim.native Sim.window
           {| root := 1%positive |} "logo.png" None ∅ (Sim.start true)
           Runs.logo 30 40 eq_refl).
  - vm_compute. reflexivity.
  - lia.
  - lia.
Defined.

Lemma load_failure_stops_construction_witness :
  run Sim.native (Runs.image "missing.png" (Some 100) None) (Sim.start true) =
  {| final := Sim.start true;
     trace := [PILImage_open (Path "missing.png")];
     result := Err (Foreign "FileNotFoundError") |}.
Proof.
  rewrite (load_failure_stops_construction Sim.native Sim.window
             {| root := 1%positive |} "missing.png" None (Some 100) None ∅
             (Sim.start true) (Foreign "FileNotFoundError") eq_refl).
  - vm_compute. reflexivity.
  - vm_compute. reflexivity.
Defined.

Lemma zero_sized_picture_raises_ZeroDivisionError_witness :
  run Sim.native
    (new (Image_class "empty.png" (Some 5) None) Sim.window None ∅)
    empty_picture_world =
  {| final := final (run Sim.native (Image.load "empty.png")
                       empty_picture_world);
     trace := [PILImage_open (Path "empty.png")];
     result := Err ZeroDivisionError |}.
Proof.
  destruct (zero_sized_picture_raises_ZeroDivisionError Sim.native Sim.window
              {| root := 1%positive |} "empty.png" None ∅ empty_picture_world
              {| im_id := 2%positive; size := (0, 10) |} eq_refl)
    as [H _].
  - vm_compute. reflexivity.
  - rewrite (H 5 None); [reflexivity|reflexivity|lia|reflexivity].
Defined.

Lemma scaled_side_is_not_negative_witness :
  PyFloat.scaled 100 100 200 = Ok 50 ∧ 0 ≤ 50.
Proof.
  assert (PyFloat.scaled 100 100 200 = Ok 50) as E
    by (vm_compute; reflexivity).
  split; [exact E|].
  apply (scaled_side_is_not_negative 100 100 200 50); [lia|lia|lia|exact E].
Defined.

Lemma methods_after_destroy_still_call_the_widget_witness :
  result (run Sim.native (self ← destroy Runs.button; config self ∅)
            (Runs.with_button true)) = Err Sim.TclError.
Proof.
  destruct (methods_after_destroy_still_call_the_widget Sim.native
              Runs.button ∅ (Runs.with_button true)
              (Runs.without_button true)) as [E _].
  - vm_compute. reflexivity.
  - rewrite E. vm_compute. reflexivity.
Defined.
